(** * 112 helpline analytics: the festival scorer, the tagger, the catalog,
      the record normalizer and the hourly and category aggregations

    A shallow embedding of [modules/festivals_utils.py],
    [modules/festivals_ics.py], [modules/data_loader.py] ([preprocess]),
    [modules/analysis.py] and the tagging block of [app.py].

    Modelling conventions.
    - A pandas [Timestamp] is a naive instant, an integer number of
      nanoseconds since 1970-01-01T00:00; [NaT] is [None].
    - A [datetime.date] is a day number counted from 1970-01-01.
    - A data frame is the list of its rows; a column holding text or a
      missing value is a [cell].
    - The means and percentages that the code computes in float64 come
      twice: as binary64 values with their rounding (module [F64]), for
      the statements that depend on the comparisons the scorer makes, and
      as exact rationals of [Q], for the statements on what the baseline
      is and on what the result does not depend on. The shares of the
      category distribution are exact rationals. Coordinates only need
      the class of the float (finite, infinite, NaN).
    - Text is a string of bytes; [lower] and [strip] act on its ASCII
      letters and ASCII white space. *)

From Stdlib Require Import ZArith QArith Qround List String Ascii Bool Lia.
From Stdlib Require Import DecimalString DecimalZ.
From Stdlib Require Import Floats.SpecFloat.
From Stdlib Require Import Sorting.Permutation Sorting.Sorted.
Import ListNotations.

Open Scope string_scope.
Open Scope list_scope.
Open Scope Z_scope.

(** ** Time *)

Definition NS_PER_HOUR : Z := 3600000000000.
Definition NS_PER_DAY : Z := 24 * NS_PER_HOUR.

(** [Timestamp.date()] / [Series.dt.date]. *)
Definition ts_date (t : Z) : Z := t / NS_PER_DAY.

(** [Series.dt.hour]. *)
Definition ts_hour (t : Z) : Z := (t mod NS_PER_DAY) / NS_PER_HOUR.

(** [pd.to_datetime] of a [datetime.date]: midnight of that day. *)
Definition date_to_datetime (d : Z) : Z := d * NS_PER_DAY.

(** [date.weekday()], Monday = 0; 1970-01-01 was a Thursday. *)
Definition weekday (d : Z) : Z := (d + 3) mod 7.

Definition DAY_NAMES : list string :=
  ["Monday"; "Tuesday"; "Wednesday"; "Thursday"; "Friday"; "Saturday"; "Sunday"].

(** [Series.dt.day_name()] on one instant. *)
Definition day_name (t : Z) : string :=
  nth (Z.to_nat (weekday (ts_date t))) DAY_NAMES "".

(** ** Text *)

Definition is_space (c : ascii) : bool :=
  let n := nat_of_ascii c in
  (((9 <=? n) && (n <=? 13)) || ((28 <=? n) && (n <=? 32)))%nat.

Definition lower_char (c : ascii) : ascii :=
  let n := nat_of_ascii c in
  if ((65 <=? n) && (n <=? 90))%nat then ascii_of_nat (n + 32) else c.

(** [str.lower]. *)
Fixpoint lower (s : string) : string :=
  match s with
  | EmptyString => EmptyString
  | String c s' => String (lower_char c) (lower s')
  end.

Fixpoint lstrip (s : string) : string :=
  match s with
  | EmptyString => EmptyString
  | String c s' => if is_space c then lstrip s' else s
  end.

Fixpoint rstrip (s : string) : string :=
  match s with
  | EmptyString => EmptyString
  | String c s' =>
      match rstrip s' with
      | EmptyString => if is_space c then EmptyString else String c EmptyString
      | r => String c r
      end
  end.

(** [str.strip]. *)
Definition strip (s : string) : string := rstrip (lstrip s).

(** ** Cells and floats *)

(** An entry of a text column: a string or a missing value (NaN). *)
Inductive cell : Type :=
  | CStr (s : string)
  | CNaN.

Definition cell_eqb (a b : cell) : bool :=
  match a, b with
  | CStr s, CStr t => String.eqb s t
  | CNaN, CNaN => true
  | _, _ => false
  end.

(** [Series.astype(str)] on one entry: a missing value becomes the text
    ["nan"]. *)
Definition astype_str (c : cell) : string :=
  match c with
  | CStr s => s
  | CNaN => "nan"
  end.

(** The classes of a float64 value. *)
Inductive float : Type :=
  | Finite (q : Q)
  | PosInf
  | NegInf
  | NaN.

(** [Series.notna()] on one float: only NaN is missing. *)
Definition notna (x : float) : bool :=
  match x with
  | NaN => false
  | _ => true
  end.

Definition is_finite (x : float) : bool :=
  match x with
  | Finite _ => true
  | _ => false
  end.

(** An entry of a raw coordinate column: already a float, a text still to
    be parsed, or nothing. *)
Inductive raw_value : Type :=
  | RNum (x : float)
  | RText (s : string)
  | RMissing.

(** ** Record normalizer: [preprocess] of modules/data_loader.py *)

Record RawRow : Type := mkRawRow {
  raw_call_id : string;
  raw_call_ts : cell;
  raw_caller_lat : raw_value;
  raw_caller_lon : raw_value;
  raw_category : cell;
  raw_jurisdiction : cell
}.

Record Row : Type := mkRow {
  call_id : string;
  call_ts : option Z;
  date : option Z;
  hour : option Z;
  weekday_name : cell;
  is_weekend : bool;
  category : cell;
  jurisdiction : cell;
  caller_lat : float;
  caller_lon : float;
  has_coords : bool
}.

Section Normalizer.

(** The two pandas parsers, left open: the text of an instant and the
    text of a number, [None] when the text does not parse. *)
Variable parse_datetime : string -> option Z.
Variable parse_numeric : string -> option float.

(** [pd.to_datetime(..., errors="coerce")] on one entry. *)
Definition to_datetime_coerce (c : cell) : option Z :=
  match c with
  | CStr s => parse_datetime s
  | CNaN => None
  end.

(** [pd.to_numeric(..., errors="coerce")] on one entry. *)
Definition to_numeric_coerce (v : raw_value) : float :=
  match v with
  | RNum x => x
  | RText s =>
      match parse_numeric s with
      | Some x => x
      | None => NaN
      end
  | RMissing => NaN
  end.

Definition isin_weekend (c : cell) : bool :=
  match c with
  | CStr s => String.eqb s "Saturday" || String.eqb s "Sunday"
  | CNaN => false
  end.

Definition preprocess_row (r : RawRow) : Row :=
  let ts := to_datetime_coerce (raw_call_ts r) in
  let wd := match ts with Some t => CStr (day_name t) | None => CNaN end in
  let lat := to_numeric_coerce (raw_caller_lat r) in
  let lon := to_numeric_coerce (raw_caller_lon r) in
  {| call_id := raw_call_id r;
     call_ts := ts;
     date := option_map ts_date ts;
     hour := option_map ts_hour ts;
     weekday_name := wd;
     is_weekend := isin_weekend wd;
     category := CStr (lower (strip (astype_str (raw_category r))));
     jurisdiction := CStr (strip (astype_str (raw_jurisdiction r)));
     caller_lat := lat;
     caller_lon := lon;
     has_coords := notna lat && notna lon |}.

(** [preprocess]: every column is computed entry by entry, no row is
    added or removed. *)
Definition preprocess (df : list RawRow) : list Row :=
  map preprocess_row df.

End Normalizer.

(** ** Festival catalog: [fetch_festivals_from_ics] of modules/festivals_ics.py *)

(** A festival is the tuple [(name, start, end)]. *)
Definition Festival : Type := (string * Z * Z)%type.

Definition fest_name (f : Festival) : string := fst (fst f).
Definition fest_start (f : Festival) : Z := snd (fst f).
Definition fest_end (f : Festival) : Z := snd f.

(** The [.dt] of a DTSTART or DTEND property: a [date] or a [datetime]. *)
Inductive ical_dt : Type :=
  | ICalDate (d : Z)
  | ICalDateTime (t : Z).

(** One component met by [cal.walk()]. *)
Record Component : Type := mkComponent {
  comp_name : string;
  SUMMARY : option string;
  DTSTART : option ical_dt;
  DTEND : option ical_dt
}.

Definition to_datetime (x : ical_dt) : Z :=
  match x with
  | ICalDate d => date_to_datetime d
  | ICalDateTime t => t
  end.

(** The test of line 32: the class of [dtstart] is [date], it has no
    [hour]. *)
Definition is_date_only (x : ical_dt) : bool :=
  match x with
  | ICalDate _ => true
  | ICalDateTime _ => false
  end.

(** [str(component.get("SUMMARY"))]. *)
Definition summary_str (s : option string) : string :=
  match s with
  | Some n => n
  | None => "None"
  end.

(** The body of the loop for one VEVENT; [None] is the AttributeError of
    [component.get(...).dt] on an absent property. *)
Definition festival_of_event (c : Component) : option Festival :=
  match DTSTART c, DTEND c with
  | Some dtstart, Some dtend =>
      let start := to_datetime dtstart in
      let end0 := to_datetime dtend in
      let end1 := if is_date_only dtstart then end0 - 1 * NS_PER_DAY else end0 in
      let end2 := if end1 <? start then start else end1 in
      Some (summary_str (SUMMARY c), start, end2)
  | _, _ => None
  end.

(** The loop of [fetch_festivals_from_ics], lines 19 to 41, over the
    components of the parsed feed: [None] is the exception that a VEVENT
    without DTSTART or DTEND raises, which aborts the whole call. The
    request and the parse of lines 15 to 18, which can raise as well, come
    before this loop and are not part of the model. *)
Fixpoint fetch_festivals_from_ics (walk : list Component) : option (list Festival) :=
  match walk with
  | [] => Some []
  | c :: rest =>
      if String.eqb (comp_name c) "VEVENT" then
        match festival_of_event c with
        | Some f =>
            match fetch_festivals_from_ics rest with
            | Some fs => Some (f :: fs)
            | None => None
            end
        | None => None
        end
      else fetch_festivals_from_ics rest
  end.

(** ** Festival tagger: app.py *)

(** [a <= b] on instants; a comparison with NaT is false. *)
Definition ts_le (a b : option Z) : bool :=
  match a, b with
  | Some x, Some y => x <=? y
  | _, _ => false
  end.

(** The catalog restricted to the selected window (app.py, lines 116-121). *)
Definition festivals_in_range (start_sel end_sel : Z) (all_festivals : list Festival)
  : list Festival :=
  filter (fun f => (start_sel <=? fest_end f) && (fest_start f <=? end_sel)) all_festivals.

Definition NON_FESTIVAL : string := "Non-Festival".

Fixpoint tag_festival_for_row (festivals_in_range_all : list Festival) (ts : option Z)
  : string :=
  match festivals_in_range_all with
  | [] => NON_FESTIVAL
  | (name, fs, fe) :: rest =>
      if ts_le (Some fs) ts && ts_le ts (Some fe) then name
      else tag_festival_for_row rest ts
  end.

(** The column [festival_name] of [df_filtered] (app.py, lines 139-143). *)
Definition festival_name_column (festivals_in_range_all : list Festival)
  (df_filtered : list Row) : list string :=
  match festivals_in_range_all with
  | _ :: _ => map (fun r => tag_festival_for_row festivals_in_range_all (call_ts r)) df_filtered
  | [] => map (fun _ => NON_FESTIVAL) df_filtered
  end.

(** ** Count tables: [groupby(key).size()] *)

(** A pandas Series of counts indexed by an integer key, in index order. *)
Definition Series : Type := list (Z * Z).

(** One more row under key [k]; the index stays sorted and free of
    repetition. *)
Fixpoint bump (k : Z) (t : Series) : Series :=
  match t with
  | [] => [(k, 1)]
  | (k', n) :: rest =>
      if k <? k' then (k, 1) :: t
      else if k =? k' then (k', n + 1) :: rest
      else (k', n) :: bump k rest
  end.

(** [df.groupby(col).size()]: rows whose key is missing are left out. *)
Fixpoint groupby_size (keys : list (option Z)) : Series :=
  match keys with
  | [] => []
  | None :: rest => groupby_size rest
  | Some k :: rest => bump k (groupby_size rest)
  end.

(** [Series.get(key, default)]. *)
Fixpoint series_get (t : Series) (k : Z) (default : Z) : Z :=
  match t with
  | [] => default
  | (k', n) :: rest => if k =? k' then n else series_get rest k default
  end.

Definition series_sum (t : Series) : Z :=
  fold_right (fun e acc => snd e + acc) 0 t.

Definition series_empty (t : Series) : bool :=
  match t with
  | [] => true
  | _ :: _ => false
  end.

(** [Series.mean()] of a non-empty series of integers. *)
Definition series_mean (t : Series) : Q :=
  inject_Z (series_sum t) / inject_Z (Z.of_nat (List.length t)).

(** ** Significance scorer: modules/festivals_utils.py *)

Definition Qltb (a b : Q) : bool := negb (Qle_bool b a).

(** The dictionary appended to [results]. *)
Record SignificanceResult : Type := mkResult {
  r_name : string;
  r_start : Z;
  r_end : Z;
  r_max_pct : Q;
  r_max_count : Z;
  r_max_day : Z
}.

(** The three running variables of the loop over the days. *)
Record Peak : Type := mkPeak {
  max_pct : Q;
  max_count : Z;
  max_day : option Z
}.

Definition peak_init : Peak :=
  {| max_pct := - (999 # 1); max_count := 0; max_day := None |}.

(** The mask of line 39. *)
Definition category_matches (cat : string) (r : Row) : bool :=
  String.eqb (lower (astype_str (category r))) (lower cat).

Definition day_count (counts_by_date : Series) (cur : Z) : Z :=
  series_get counts_by_date cur 0.

Definition same_wd_counts (counts_by_date : Series) (cur : Z) : Series :=
  if (0 <? Z.of_nat (List.length counts_by_date))
  then filter (fun e => weekday (fst e) =? weekday cur) counts_by_date
  else [].

Definition baseline (counts_by_date : Series) (cur : Z) : Q :=
  let same := same_wd_counts counts_by_date cur in
  if negb (series_empty same) then series_mean same
  else if negb (series_empty counts_by_date) then series_mean counts_by_date
  else 0%Q.

Definition baseline_adj (counts_by_date : Series) (cur : Z) : Q :=
  let b := baseline counts_by_date cur in
  if Qltb 0 b then b else 1%Q.

Definition pct (counts_by_date : Series) (cur : Z) : Q :=
  ((inject_Z (day_count counts_by_date cur) - baseline_adj counts_by_date cur)
   / baseline_adj counts_by_date cur * (100 # 1))%Q.

(** One turn of the [while] loop, lines 56-75. *)
Definition scan_step (counts_by_date : Series) (min_calls : Z) (cur : Z) (st : Peak)
  : Peak :=
  let c := day_count counts_by_date cur in
  let p := pct counts_by_date cur in
  if (min_calls <=? c) && Qltb (max_pct st) p
  then {| max_pct := p; max_count := c; max_day := Some cur |}
  else st.

(** [while cur <= end_date]: [n] turns are left, [cur] moves on by one day. *)
Fixpoint scan_days (counts_by_date : Series) (min_calls : Z) (n : nat) (cur : Z)
  (st : Peak) : Peak :=
  match n with
  | O => st
  | S n' =>
      scan_days counts_by_date min_calls n' (cur + 1)
        (scan_step counts_by_date min_calls cur st)
  end.

(** The body of the loop over the festivals, lines 47-88. *)
Definition score_festival (counts_by_date : Series) (threshold_pct : Q) (min_calls : Z)
  (f : Festival) : option SignificanceResult :=
  let '(name, start_ts, end_ts) := f in
  let start_date := ts_date start_ts in
  let end_date := ts_date end_ts in
  let st := scan_days counts_by_date min_calls
              (Z.to_nat (end_date + 1 - start_date)) start_date peak_init in
  match max_day st with
  | Some d =>
      if Qle_bool threshold_pct (max_pct st)
      then Some {| r_name := name; r_start := start_ts; r_end := end_ts;
                   r_max_pct := max_pct st; r_max_count := max_count st;
                   r_max_day := date_to_datetime d |}
      else None
  | None => None
  end.

Definition option_to_list {A : Type} (o : option A) : list A :=
  match o with
  | Some a => [a]
  | None => []
  end.

(** [filter_significant_festivals]; [df = None] is Python's [None]. *)
Definition filter_significant_festivals (festivals : list Festival)
  (df : option (list Row)) (cat : string) (threshold_pct : Q) (min_calls : Z)
  : list SignificanceResult :=
  match df with
  | None => []
  | Some [] => []
  | Some rows =>
      let df_cat := filter (category_matches cat) rows in
      match df_cat with
      | [] => []
      | _ :: _ =>
          let counts_by_date := groupby_size (map date df_cat) in
          flat_map (fun f => option_to_list
                               (score_festival counts_by_date threshold_pct min_calls f))
                   festivals
      end
  end.

(** ** Aggregators: modules/analysis.py *)

(** [left.merge(right, on=key, how="left")] for a one-column left table:
    each left key with every matching right row, or with a missing count. *)
Definition merge_left (left : list Z) (right : Series) : list (Z * option Z) :=
  flat_map (fun h =>
              match filter (fun e => fst e =? h) right with
              | [] => [(h, None)]
              | ms => map (fun e => (h, Some (snd e))) ms
              end) left.

(** [fillna(0)] followed by [astype(int)] on the count column. *)
Definition fillna0 (rows : list (Z * option Z)) : Series :=
  map (fun e => (fst e, match snd e with Some n => n | None => 0 end)) rows.

Definition range24 : list Z := map Z.of_nat (seq 0 24).

Definition agg_calls_by_hour (df : list Row) : Series :=
  let series := groupby_size (map hour df) in
  fillna0 (merge_left range24 series).

(** One more row under the entry [c], new entries last. *)
Fixpoint bump_cell (c : cell) (t : list (cell * Z)) : list (cell * Z) :=
  match t with
  | [] => [(c, 1)]
  | (c', n) :: rest =>
      if cell_eqb c c' then (c', n + 1) :: rest else (c', n) :: bump_cell c rest
  end.

Fixpoint insert_desc (e : cell * Z) (l : list (cell * Z)) : list (cell * Z) :=
  match l with
  | [] => [e]
  | x :: rest => if snd e <? snd x then x :: insert_desc e rest else e :: l
  end.

Definition sort_desc (l : list (cell * Z)) : list (cell * Z) :=
  fold_right insert_desc [] l.

(** [Series.value_counts(dropna=False)]: one bucket per distinct entry, a
    missing entry being an entry like another, largest count first. *)
Definition value_counts (col : list cell) : list (cell * Z) :=
  sort_desc (fold_left (fun t c => bump_cell c t) col []).

Definition cell_counts_sum (t : list (cell * Z)) : Z :=
  fold_right (fun e acc => snd e + acc) 0 t.

(** [category_distribution]: the rows (category, count, pct). *)
Definition category_distribution (df : list Row) : list (cell * Z * Q) :=
  let counts := value_counts (map category df) in
  let total := cell_counts_sum counts in
  map (fun e => (fst e, snd e, (inject_Z (snd e) / inject_Z total * (100 # 1))%Q)) counts.

(** ** Notions of the specification *)

(** The number of rows whose key is [k]. *)
Definition count_key (keys : list (option Z)) (k : Z) : Z :=
  Z.of_nat (List.length
    (filter (fun o => match o with Some x => x =? k | None => false end) keys)).

(** The instant [t] lies in the closed interval of the festival [f]. *)
Definition contains (f : Festival) (t : Z) : Prop :=
  fest_start f <= t <= fest_end f.

(** The days of a festival, first to last. *)
Definition in_interval (f : Festival) (d : Z) : Prop :=
  ts_date (fest_start f) <= d <= ts_date (fest_end f).

(** A result of the scorer that belongs to the festival [f]. *)
Definition result_of (f : Festival) (r : SignificanceResult) : Prop :=
  r_name r = fest_name f /\ r_start r = fest_start f /\ r_end r = fest_end f.

(** The count table as the scorer builds it from a data frame. *)
Definition counts_of (rows : list Row) (cat : string) : Series :=
  groupby_size (map date (filter (category_matches cat) rows)).

(** *** The baseline in the words of the specification *)








(** ** Notions used by the statements and their proofs *)

(** A value that [to_numeric] cannot read: nothing, or a text that is not
    the text of a number. *)
Definition unreadable (parse_numeric : string -> option float) (v : raw_value) : Prop :=
  match v with
  | RNum _ => False
  | RText s => parse_numeric s = None
  | RMissing => True
  end.

(** The shape of a count table: keys strictly increasing, counts positive. *)
Inductive sorted_series : Series -> Prop :=
  | sorted_nil : sorted_series []
  | sorted_cons (k n : Z) (t : Series) :
      0 < n ->
      (forall k', In k' (map fst t) -> k < k') ->
      sorted_series t ->
      sorted_series ((k, n) :: t).

Create HintDb series.
#[local] Hint Constructors sorted_series : series.

(** The test [component.name == "VEVENT"]. *)
Definition is_vevent (c : Component) : bool := String.eqb (comp_name c) "VEVENT".

(** The interval made from one event: an all-day event loses one day at
    its end, a timed event keeps its end, and an end before the start is
    replaced by the start. *)
Definition interval_of_event (c : Component) (f : Festival) : Prop :=
  exists dtstart dtend,
    DTSTART c = Some dtstart /\ DTEND c = Some dtend /\
    fest_name f = summary_str (SUMMARY c) /\
    fest_start f = to_datetime dtstart /\
    let inclusive_end :=
      match dtstart with
      | ICalDate _ => to_datetime dtend - NS_PER_DAY
      | ICalDateTime _ => to_datetime dtend
      end in
    (fest_start f <= inclusive_end -> fest_end f = inclusive_end) /\
    (inclusive_end < fest_start f -> fest_end f = fest_start f).

(** A raw row whose latitude column holds the float infinity, as a CSV
    field [inf] is read. *)
Definition infinite_latitude_row : RawRow :=
  {| raw_call_id := "1";
     raw_call_ts := CStr "2024-01-01 10:00:00";
     raw_caller_lat := RNum PosInf;
     raw_caller_lon := RNum (Finite (0 # 1));
     raw_category := CStr "crime";
     raw_jurisdiction := CStr "Panaji" |}.

(** The number of entries of a column equal to [c]. *)
Definition count_cell (col : list cell) (c : cell) : Z :=
  Z.of_nat (List.length (filter (cell_eqb c) col)).

(** The count of the first bucket under [c], 0 without one. *)
Fixpoint cell_get (t : list (cell * Z)) (c : cell) : Z :=
  match t with
  | [] => 0
  | (c', n) :: rest => if cell_eqb c c' then n else cell_get rest c
  end.

(** The rows of a record set, none when it is absent. *)
Definition rows_of (df : option (list Row)) : list Row :=
  match df with
  | Some rows => rows
  | None => []
  end.

(** ** The scorer in binary64

    The definitions of the scorer above read its arithmetic exactly. The
    code computes the means and the percentages in float64 and makes the
    tests [pct > max_pct] and [max_pct >= threshold_pct] on the rounded
    values; the module below follows it there, with the binary64
    operations of the standard library's specification of floating-point
    numbers (round to nearest, ties to even). The count table, the day
    count and the selection of the weekday are those above: they are
    integers. *)

Module F64.

Definition prec : Z := 53.
Definition emax : Z := 1024.

(** A float64 value. *)
Definition float64 : Type := spec_float.

(** [float(n)] for an integer [n]. *)
Definition of_int (n : Z) : float64 := binary_normalize prec emax n 0 false.

Definition sub (x y : float64) : float64 := SFsub prec emax x y.
Definition div (x y : float64) : float64 := SFdiv prec emax x y.
Definition mul (x y : float64) : float64 := SFmul prec emax x y.

(** [Series.mean()] of a table of integer counts: pandas adds the counts
    up in float64 and divides by their number. Up to 2^53 every partial
    sum is an integer that float64 holds exactly, so the sum is the
    conversion of the exact sum. *)
Definition series_mean (t : Series) : float64 :=
  div (of_int (series_sum t)) (of_int (Z.of_nat (List.length t))).

(** The dictionary appended to [results]. *)
Record SignificanceResult : Type := mkResult {
  r_name : string;
  r_start : Z;
  r_end : Z;
  r_max_pct : float64;
  r_max_count : Z;
  r_max_day : Z
}.

(** The three running variables of the loop over the days. *)
Record Peak : Type := mkPeak {
  max_pct : float64;
  max_count : Z;
  max_day : option Z
}.

Definition peak_init : Peak :=
  {| max_pct := of_int (-999); max_count := 0; max_day := None |}.

Definition baseline (counts_by_date : Series) (cur : Z) : float64 :=
  let same := same_wd_counts counts_by_date cur in
  if negb (series_empty same) then series_mean same
  else if negb (series_empty counts_by_date) then series_mean counts_by_date
  else of_int 0.

Definition baseline_adj (counts_by_date : Series) (cur : Z) : float64 :=
  let b := baseline counts_by_date cur in
  if SFltb (of_int 0) b then b else of_int 1.

Definition pct (counts_by_date : Series) (cur : Z) : float64 :=
  mul (div (sub (of_int (day_count counts_by_date cur))
                (baseline_adj counts_by_date cur))
           (baseline_adj counts_by_date cur))
      (of_int 100).

(** One turn of the [while] loop, lines 56-75. *)
Definition scan_step (counts_by_date : Series) (min_calls : Z) (cur : Z) (st : Peak)
  : Peak :=
  let c := day_count counts_by_date cur in
  let p := pct counts_by_date cur in
  if (min_calls <=? c) && SFltb (max_pct st) p
  then {| max_pct := p; max_count := c; max_day := Some cur |}
  else st.

(** [while cur <= end_date]: [n] turns are left, [cur] moves on by one day. *)
Fixpoint scan_days (counts_by_date : Series) (min_calls : Z) (n : nat) (cur : Z)
  (st : Peak) : Peak :=
  match n with
  | O => st
  | S n' =>
      scan_days counts_by_date min_calls n' (cur + 1)
        (scan_step counts_by_date min_calls cur st)
  end.

(** The body of the loop over the festivals, lines 47-88. *)
Definition score_festival (counts_by_date : Series) (threshold_pct : float64)
  (min_calls : Z) (f : Festival) : option SignificanceResult :=
  let '(name, start_ts, end_ts) := f in
  let start_date := ts_date start_ts in
  let end_date := ts_date end_ts in
  let st := scan_days counts_by_date min_calls
              (Z.to_nat (end_date + 1 - start_date)) start_date peak_init in
  match max_day st with
  | Some d =>
      if SFleb threshold_pct (max_pct st)
      then Some {| r_name := name; r_start := start_ts; r_end := end_ts;
                   r_max_pct := max_pct st; r_max_count := max_count st;
                   r_max_day := date_to_datetime d |}
      else None
  | None => None
  end.

(** [filter_significant_festivals]; [df = None] is Python's [None]. *)
Definition filter_significant_festivals (festivals : list Festival)
  (df : option (list Row)) (cat : string) (threshold_pct : float64) (min_calls : Z)
  : list SignificanceResult :=
  match df with
  | None => []
  | Some [] => []
  | Some rows =>
      let df_cat := filter (category_matches cat) rows in
      match df_cat with
      | [] => []
      | _ :: _ =>
          let counts_by_date := groupby_size (map date df_cat) in
          flat_map (fun f => option_to_list
                               (score_festival counts_by_date threshold_pct min_calls f))
                   festivals
      end
  end.

(** A result of the scorer that belongs to the festival [f]. *)
Definition result_of (f : Festival) (r : SignificanceResult) : Prop :=
  r_name r = fest_name f /\ r_start r = fest_start f /\ r_end r = fest_end f.

(** A float that is not NaN; a comparison with NaN is false. *)
Definition is_number (x : float64) : bool :=
  match x with
  | S754_nan => false
  | _ => true
  end.

(** What the running variables hold once the days [lo], ..., [cur - 1]
    have been seen. *)
Definition scan_inv (counts : Series) (min_calls lo cur : Z) (st : Peak) : Prop :=
  match max_day st with
  | None =>
      max_pct st = max_pct peak_init /\
      forall d, lo <= d < cur -> min_calls <= day_count counts d ->
                SFltb (max_pct peak_init) (pct counts d) = false
  | Some d =>
      lo <= d < cur /\
      min_calls <= day_count counts d /\
      max_pct st = pct counts d /\
      max_count st = day_count counts d /\
      SFltb (max_pct peak_init) (pct counts d) = true /\
      (forall d', lo <= d' < cur -> min_calls <= day_count counts d' ->
                  is_number (pct counts d') = true ->
                  SFleb (pct counts d') (pct counts d) = true) /\
      (forall d', lo <= d' < d -> min_calls <= day_count counts d' ->
                  is_number (pct counts d') = true ->
                  SFltb (pct counts d') (pct counts d) = true)
  end.

(** The peak of a festival: a day of the interval that meets the floor,
    whose percentage no day meeting the floor exceeds and no earlier such
    day reaches (a percentage that is NaN compares with nothing). *)
Definition is_peak (counts : Series) (min_calls : Z) (f : Festival) (d : Z) : Prop :=
  in_interval f d /\
  min_calls <= day_count counts d /\
  is_number (pct counts d) = true /\
  (forall d', in_interval f d' -> min_calls <= day_count counts d' ->
              is_number (pct counts d') = true ->
              SFleb (pct counts d') (pct counts d) = true) /\
  (forall d', in_interval f d' -> min_calls <= day_count counts d' ->
              is_number (pct counts d') = true -> d' < d ->
              SFltb (pct counts d') (pct counts d) = true).


End F64.

(** ** Worked inputs *)

(** A normalized record of the day [d], at ten o'clock, of category [c]. *)
Definition example_row (d : Z) (c : string) : Row :=
  {| call_id := "call";
     call_ts := Some (date_to_datetime d + 10 * NS_PER_HOUR);
     date := Some d;
     hour := Some 10;
     weekday_name := CStr (day_name (date_to_datetime d));
     is_weekend := false;
     category := CStr c;
     jurisdiction := CStr "Panaji";
     caller_lat := NaN;
     caller_lon := NaN;
     has_coords := false |}.

(** Thursdays: 1 call on day -7, 3 calls on day 0 (baseline 2, +50%).
    Fridays: 3 calls on day -6, 6 calls on day 1 (baseline 4.5, +33.3%).
    Saturdays: 3 calls on day -5, 6 calls on day 2 (the same as Friday). *)
Definition example_rows : list Row :=
  repeat (example_row (-7) "crime") 1 ++ repeat (example_row 0 "crime") 3 ++
  repeat (example_row (-6) "crime") 3 ++ repeat (example_row 1 "Crime") 6 ++
  repeat (example_row (-5) "crime") 3 ++ repeat (example_row 2 "crime") 6 ++
  repeat (example_row 1 "medical") 2.

(** Days 0 to 2, from midnight to midnight. *)
Definition example_festival : Festival :=
  ("Diwali", date_to_datetime 0, date_to_datetime 2).

(** The result expected for it: day 0 has the larger percentage but only 3
    calls; days 1 and 2 tie, the earlier one is reported. *)
Definition example_result : F64.SignificanceResult :=
  {| F64.r_name := "Diwali";
     F64.r_start := date_to_datetime 0;
     F64.r_end := date_to_datetime 2;
     F64.r_max_pct := F64.pct (counts_of example_rows "crime") 1;
     F64.r_max_count := 6;
     F64.r_max_day := date_to_datetime 1 |}.

(** Thirteen Mondays with 70 calls in all, 7 of them on the Monday of day
    4: exactly 30 percent above the mean 70/13, and 29.999999999999989
    percent in binary64. *)
Definition monday_rows : list Row :=
  repeat (example_row 4 "crime") 7 ++
  flat_map (fun k => repeat (example_row (4 + 7 * k) "crime") 5)
           [1; 2; 3; 4; 5; 6; 7; 8; 9] ++
  flat_map (fun k => repeat (example_row (4 + 7 * k) "crime") 6) [10; 11; 12].

(** Thursdays with 6 and 2 calls, Fridays with 8, 4 and 4: day 0 and day 1
    are both exactly 50 percent above their mean; in binary64 day 1 comes
    out as 50.000000000000014. *)
Definition thursday_friday_rows : list Row :=
  repeat (example_row 0 "crime") 6 ++ repeat (example_row 7 "crime") 2 ++
  repeat (example_row 1 "crime") 8 ++ repeat (example_row 8 "crime") 4 ++
  repeat (example_row 15 "crime") 4.

(** Two festivals that overlap on day 1. *)
Definition example_catalog : list Festival :=
  [("Diwali", date_to_datetime 0, date_to_datetime 2);
   ("Fair", date_to_datetime 1, date_to_datetime 5)].

(** A calendar header, an all-day event of one day, a timed event whose
    end lies before its start. *)
Definition example_walk : list Component :=
  [ {| comp_name := "VCALENDAR"; SUMMARY := None; DTSTART := None; DTEND := None |};
    {| comp_name := "VEVENT"; SUMMARY := Some "Diwali";
       DTSTART := Some (ICalDate 10); DTEND := Some (ICalDate 11) |};
    {| comp_name := "VEVENT"; SUMMARY := Some "Procession";
       DTSTART := Some (ICalDateTime 500); DTEND := Some (ICalDateTime 100) |} ].

(** A raw table whose second row has no category. *)
Definition example_raw : list RawRow :=
  [ {| raw_call_id := "1"; raw_call_ts := CStr "2024-01-01 10:00:00";
       raw_caller_lat := RText "15.49"; raw_caller_lon := RText "73.82";
       raw_category := CStr " Crime "; raw_jurisdiction := CStr " Panaji " |};
    {| raw_call_id := "2"; raw_call_ts := CStr "never";
       raw_caller_lat := RMissing; raw_caller_lon := RText "abc";
       raw_category := CNaN; raw_jurisdiction := CNaN |} ].

(** ** Further code: daily aggregation, the catalog as the dashboard uses it *)

(** [DataFrame.sort_values(key)] on a count table: ascending, rows of equal
    key in their former order. *)
Fixpoint insert_by_key (e : Z * Z) (l : Series) : Series :=
  match l with
  | [] => [e]
  | x :: rest => if fst e <=? fst x then e :: l else x :: insert_by_key e rest
  end.

Definition sort_values (t : Series) : Series :=
  fold_right insert_by_key [] t.

(** [agg_calls_by_day] of modules/analysis.py. *)
Definition agg_calls_by_day (df : list Row) : Series :=
  sort_values (groupby_size (map date df)).

(** app.py, lines 74-78: a failed fetch leaves the catalog empty. *)
Definition all_festivals_of (walk : list Component) : list Festival :=
  match fetch_festivals_from_ics walk with
  | Some festivals => festivals
  | None => []
  end.

(** The festival a result speaks of. *)
Definition festival_of_result (r : SignificanceResult) : Festival :=
  (r_name r, r_start r, r_end r).

(** The scorer reaches its loop and the loop reports the festival. *)
Definition is_significant (df : option (list Row)) (cat : string) (threshold_pct : Q)
  (min_calls : Z) (f : Festival) : bool :=
  existsb (category_matches cat) (rows_of df) &&
  match score_festival (counts_of (rows_of df) cat) threshold_pct min_calls f with
  | Some _ => true
  | None => false
  end.

(** ** Further code: the insights on the hourly table, modules/analysis.py *)

(** [str] of an integer, as an f-string prints it. *)
Definition str_int (z : Z) : string := NilZero.string_of_int (Z.to_int z).

Fixpoint insert_largest (e : Z * Z) (l : Series) : Series :=
  match l with
  | [] => [e]
  | x :: rest => if snd e <? snd x then x :: insert_largest e rest else e :: l
  end.

(** [DataFrame.nlargest(n, "count")]: the [n] rows of largest count, rows
    of equal count in their order in the table. *)
Definition nlargest (n : nat) (t : Series) : Series :=
  firstn n (fold_right insert_largest [] t).

Fixpoint insert_smallest (e : Z * Z) (l : Series) : Series :=
  match l with
  | [] => [e]
  | x :: rest => if snd x <? snd e then x :: insert_smallest e rest else e :: l
  end.

(** [DataFrame.nsmallest(n, "count")]. *)
Definition nsmallest (n : nat) (t : Series) : Series :=
  firstn n (fold_right insert_smallest [] t).

Definition NO_DATA : string := "No data available for selected period.".

Definition EVENING : string :=
  "Evening hours are consistently busy — likely crime and safety-related.".

Definition MORNING : string :=
  "Morning hours see high call activity — possibly accidents and medical emergencies.".

Definition peak_message (row : Z * Z) : string :=
  ("Peak hour: " ++ str_int (fst row) ++ " with " ++ str_int (snd row) ++ " calls.")%string.

Definition quiet_message (row : Z * Z) : string :=
  ("Quietest hour: " ++ str_int (fst row) ++ " with only " ++ str_int (snd row)
   ++ " calls.")%string.

(** [h in range(lo, hi)]. *)
Definition in_range (lo hi h : Z) : bool := (lo <=? h) && (h <? hi).

(** [interpret_hourly_distribution]; a row is (hour, count). In the second
    branch the table has a first row, so [iloc[0]] finds one. *)
Definition interpret_hourly_distribution (hr_df : Series) : list string :=
  match hr_df with
  | [] => [NO_DATA]
  | first :: _ =>
      let peak := hd first (nlargest 3 hr_df) in
      let low := hd first (nsmallest 3 hr_df) in
      [peak_message peak; quiet_message low]
      ++ (if in_range 18 24 (fst peak) then [EVENING] else [])
      ++ (if in_range 6 9 (fst peak) then [MORNING] else [])
  end.

(** ** Further code: the table handed to the maps, modules/mapping.py *)

Record PydeckRow : Type := mkPydeckRow {
  p_lat : float;
  p_lon : float;
  p_category : string;
  p_jurisdiction : string;
  p_weight : Q
}.

Definition cell_notna (c : cell) : bool :=
  match c with
  | CStr _ => true
  | CNaN => false
  end.

(** [clean_df_for_pydeck] on a table whose coordinates are floats already:
    the rows with a missing value in one of the four columns go, then the
    rows with a missing coordinate, the texts are made strings, the weight
    is 1. *)
Definition clean_df_for_pydeck (df : list Row) : list PydeckRow :=
  let kept :=
    filter (fun r => notna (caller_lat r) && notna (caller_lon r)
                     && cell_notna (category r) && cell_notna (jurisdiction r)) df in
  let kept := filter (fun r => notna (caller_lat r) && notna (caller_lon r)) kept in
  map (fun r => {| p_lat := caller_lat r;
                   p_lon := caller_lon r;
                   p_category := astype_str (category r);
                   p_jurisdiction := astype_str (jurisdiction r);
                   p_weight := 1%Q |}) kept.

(** ** Further code: the days of the calendar, app.py, lines 85-91 *)

(** A dictionary from texts to lists of names, in insertion order. *)
Definition DatesMap : Type := list (string * list string).

(** [m.setdefault(key, []).append(name)]. *)
Fixpoint setdefault_append (key name : string) (m : DatesMap) : DatesMap :=
  match m with
  | [] => [(key, [name])]
  | (k, v) :: rest =>
      if String.eqb key k then (k, v ++ [name]) :: rest
      else (k, v) :: setdefault_append key name rest
  end.

(** [m.get(key)]; [key in m] is [m.get(key)] being there. *)
Fixpoint dict_get (m : DatesMap) (key : string) : option (list string) :=
  match m with
  | [] => None
  | (k, v) :: rest => if String.eqb key k then Some v else dict_get rest key
  end.

Section FestivalDatesMap.

(** [date.isoformat], left open. *)
Variable isoformat : Z -> string.

(** [while cur <= endd]: [n] days are left. *)
Fixpoint mark_days (n : nat) (cur : Z) (name : string) (m : DatesMap) : DatesMap :=
  match n with
  | O => m
  | S n' => mark_days n' (cur + 1) name (setdefault_append (isoformat cur) name m)
  end.

Definition festival_dates_map (all_festivals : list Festival) : DatesMap :=
  fold_left (fun m f =>
               let '(name, fs, fe) := f in
               mark_days (Z.to_nat (ts_date fe + 1 - ts_date fs)) (ts_date fs) name m)
            all_festivals [].

End FestivalDatesMap.

(** The day [d] is one of the days of the festival [f]. *)
Definition on_day (d : Z) (f : Festival) : bool :=
  (ts_date (fest_start f) <=? d) && (d <=? ts_date (fest_end f)).

(** The first row of largest count: no earlier row reaches it, no later
    row exceeds it. *)
Definition first_max (t : Series) (e : Z * Z) : Prop :=
  exists pre post,
    t = pre ++ e :: post /\
    (forall x, In x pre -> snd x < snd e) /\
    (forall x, In x post -> snd x <= snd e).

Definition first_min (t : Series) (e : Z * Z) : Prop :=
  exists pre post,
    t = pre ++ e :: post /\
    (forall x, In x pre -> snd e < snd x) /\
    (forall x, In x post -> snd e <= snd x).

(** ** Notions used by the further properties *)

Definition scored_list (festivals : list Festival) (counts : Series)
  (threshold_pct : Q) (min_calls : Z) : list SignificanceResult :=
  flat_map (fun f => option_to_list (score_festival counts threshold_pct min_calls f))
           festivals.

(** A text that is empty or starts with a character that is no white
    space. *)
Definition no_leading_space (s : string) : Prop :=
  match s with
  | EmptyString => True
  | String c _ => is_space c = false
  end.

Definition sum_over (f : Z -> Z) (l : list Z) : Z :=
  fold_right (fun h acc => f h + acc) 0 l.

Definition hour_in_day (o : option Z) : bool :=
  match o with
  | Some h => (0 <=? h) && (h <? 24)
  | None => false
  end.

(** Counts from the largest to the smallest. *)
Definition descending (l : list (cell * Z)) : Prop :=
  StronglySorted (fun a b => snd b <= snd a) l.

(** The sum of the percentage column. *)
Definition pct_sum (dist : list (cell * Z * Q)) : Q :=
  fold_right (fun e acc => (snd e + acc)%Q) 0%Q dist.

(** The names under a day once more names have been appended. *)
Definition extend (o : option (list string)) (names : list string)
  : option (list string) :=
  match names with
  | [] => o
  | _ :: _ => Some (match o with Some v => v ++ names | None => names end)
  end.

(** A festival entered with its end before its start. *)
Definition inverted_festival : Festival :=
  ("Inverted", date_to_datetime 2, date_to_datetime 0).

(** The all-day event of day 10, as the feed gives it. *)
Definition one_day_event : Component :=
  {| comp_name := "VEVENT"; SUMMARY := Some "Diwali";
     DTSTART := Some (ICalDate 10); DTEND := Some (ICalDate 11) |}.

(** * Theorems *)

(** ** Count tables *)

Lemma bump_keys (k h : Z) (t : Series) :
  In h (map fst (bump k t)) <-> h = k \/ In h (map fst t).
Proof.
  induction t as [|[k' n] t IH]; simpl.
  - intuition.
  - destruct (k <? k') eqn:Hlt; simpl.
    + intuition.
    + destruct (k =? k') eqn:Heq; simpl.
      * apply Z.eqb_eq in Heq. subst. intuition.
      * rewrite IH. intuition.
Qed.

Lemma bump_sorted (k : Z) (t : Series) :
  sorted_series t -> sorted_series (bump k t).
Proof.
  induction 1 as [|k' n t Hn Hlow Hs IH]; simpl.
  - constructor; [lia | simpl; tauto | constructor].
  - destruct (k <? k') eqn:Hlt.
    + apply Z.ltb_lt in Hlt.
      constructor; [lia | | constructor; assumption].
      simpl. intros x [<- | Hx]; [assumption |].
      specialize (Hlow x Hx). lia.
    + apply Z.ltb_ge in Hlt.
      destruct (k =? k') eqn:Heq.
      * constructor; [lia | assumption | assumption].
      * apply Z.eqb_neq in Heq.
        constructor; [assumption | | assumption].
        intros x Hx. apply bump_keys in Hx as [-> | Hx]; [lia | auto].
Qed.

Lemma groupby_size_sorted (keys : list (option Z)) :
  sorted_series (groupby_size keys).
Proof.
  induction keys as [|[k|] keys IH]; simpl;
    auto using bump_sorted with series.
Qed.

Lemma series_get_absent (t : Series) (k dflt : Z) :
  ~ In k (map fst t) -> series_get t k dflt = dflt.
Proof.
  induction t as [|[k' n] t IH]; simpl; intros Hk; [reflexivity|].
  destruct (k =? k') eqn:Heq.
  - apply Z.eqb_eq in Heq. subst. tauto.
  - apply IH. tauto.
Qed.

Lemma series_get_bump (k h : Z) (t : Series) :
  sorted_series t ->
  series_get (bump k t) h 0 = (if h =? k then 1 else 0) + series_get t h 0.
Proof.
  induction 1 as [|k' n t Hn Hlow Hs IH]; simpl.
  - destruct (h =? k); reflexivity.
  - destruct (k <? k') eqn:Hlt; simpl.
    + apply Z.ltb_lt in Hlt.
      destruct (h =? k) eqn:Hhk; [|reflexivity].
      apply Z.eqb_eq in Hhk. subst h.
      destruct (k =? k') eqn:Hkk; [apply Z.eqb_eq in Hkk; lia|].
      rewrite series_get_absent; [reflexivity|].
      intros Hin. specialize (Hlow k Hin). lia.
    + destruct (k =? k') eqn:Heq; simpl.
      * apply Z.eqb_eq in Heq. subst k'.
        destruct (h =? k); lia.
      * apply Z.eqb_neq in Heq.
        destruct (h =? k') eqn:Hhk'.
        -- apply Z.eqb_eq in Hhk'. subst h.
           destruct (k' =? k) eqn:E; [apply Z.eqb_eq in E; congruence | lia].
        -- apply IH.
Qed.

Lemma groupby_size_get (keys : list (option Z)) (k : Z) :
  series_get (groupby_size keys) k 0 = count_key keys k.
Proof.
  unfold count_key.
  induction keys as [|[x|] keys IH]; simpl; try assumption; [reflexivity|].
  rewrite series_get_bump by apply groupby_size_sorted.
  rewrite IH. rewrite (Z.eqb_sym k x).
  destruct (x =? k); simpl List.length; lia.
Qed.

Lemma groupby_size_keys (keys : list (option Z)) (k : Z) :
  In k (map fst (groupby_size keys)) <-> In (Some k) keys.
Proof.
  induction keys as [|[x|] keys IH]; simpl.
  - tauto.
  - rewrite bump_keys, IH. split.
    + intros [-> | H]; auto.
    + intros [H | H]; [inversion H; auto | auto].
  - rewrite IH. split; [auto | intros [H | H]; [discriminate | assumption]].
Qed.

Lemma sorted_series_filter_key (t : Series) (h : Z) :
  sorted_series t ->
  filter (fun e => fst e =? h) t =
  if existsb (fun e => fst e =? h) t then [(h, series_get t h 0)] else [].
Proof.
  induction 1 as [|k n t Hn Hlow Hs IH]; simpl; [reflexivity|].
  rewrite (Z.eqb_sym h k).
  destruct (k =? h) eqn:Hk; simpl.
  - apply Z.eqb_eq in Hk. subst k. f_equal.
    rewrite IH.
    destruct (existsb (fun e => fst e =? h) t) eqn:Hex; [|reflexivity].
    apply existsb_exists in Hex as [[k' n'] [Hin Hk']].
    simpl in Hk'. apply Z.eqb_eq in Hk'. subst k'.
    assert (h < h) by (apply Hlow; apply in_map_iff; exists (h, n'); auto).
    lia.
  - exact IH.
Qed.

Lemma existsb_key_false (t : Series) (h : Z) :
  existsb (fun e => fst e =? h) t = false -> series_get t h 0 = 0.
Proof.
  intros Hex. apply series_get_absent.
  intros Hin. apply in_map_iff in Hin as [[k n] [Hk Hin]].
  simpl in Hk. subst k.
  assert (existsb (fun e => fst e =? h) t = true).
  { apply existsb_exists. exists (h, n). split; [assumption | apply Z.eqb_refl]. }
  congruence.
Qed.

Lemma merge_left_fillna0 (l : list Z) (t : Series) :
  sorted_series t ->
  fillna0 (merge_left l t) = map (fun h => (h, series_get t h 0)) l.
Proof.
  intros Hs. unfold fillna0, merge_left.
  induction l as [|h l IH]; [reflexivity|].
  cbn [flat_map]. rewrite map_app, IH. clear IH.
  rewrite (sorted_series_filter_key t h Hs).
  destruct (existsb (fun e => fst e =? h) t) eqn:Hex; simpl.
  - reflexivity.
  - rewrite (existsb_key_false t h Hex). reflexivity.
Qed.

(** ** Hourly aggregation *)

Lemma range24_length : List.length range24 = 24%nat.
Proof. reflexivity. Qed.

Lemma agg_calls_by_hour_eq (df : list Row) :
  agg_calls_by_hour df = map (fun h => (h, count_key (map hour df) h)) range24.
Proof.
  unfold agg_calls_by_hour.
  rewrite merge_left_fillna0 by apply groupby_size_sorted.
  apply map_ext. intros h. now rewrite groupby_size_get.
Qed.

(** C9. Whatever the record set, the hourly aggregation has exactly 24
    rows, its hours are 0, 1, ..., 23 in this order, and the count of each
    hour is the number of records of that hour (hence zero for an hour
    without a call). *)
Theorem agg_calls_by_hour_24_rows (df : list Row) :
  List.length (agg_calls_by_hour df) = 24%nat /\
  map fst (agg_calls_by_hour df) = map Z.of_nat (seq 0 24) /\
  map snd (agg_calls_by_hour df)
  = map (fun h => count_key (map hour df) h) (map Z.of_nat (seq 0 24)).
Proof.
  rewrite agg_calls_by_hour_eq. fold range24.
  split; [|split].
  - now rewrite length_map.
  - rewrite map_map. cbn [fst]. apply map_id.
  - now rewrite map_map.
Qed.

Lemma count_key_no_call (keys : list (option Z)) (h : Z) :
  ~ In (Some h) keys -> count_key keys h = 0.
Proof.
  unfold count_key. induction keys as [|[x|] keys IH]; simpl; intros Hn.
  - reflexivity.
  - destruct (x =? h) eqn:E.
    + apply Z.eqb_eq in E. subst. tauto.
    + apply IH. tauto.
  - apply IH. intros H. apply Hn. now right.
Qed.

(** ** Festival tagger *)

Lemma ts_le_NaT_r (a : option Z) : ts_le a None = false.
Proof. destruct a; reflexivity. Qed.

Lemma contains_iff (f : Festival) (t : Z) :
  ts_le (Some (fest_start f)) (Some t) && ts_le (Some t) (Some (fest_end f)) = true
  <-> contains f t.
Proof.
  unfold contains. simpl. rewrite andb_true_iff, !Z.leb_le. tauto.
Qed.

Lemma tag_festival_for_row_NaT (festivals : list Festival) :
  tag_festival_for_row festivals None = NON_FESTIVAL.
Proof.
  induction festivals as [|[[name fs] fe] rest IH]; simpl; [reflexivity | exact IH].
Qed.

Lemma tag_festival_for_row_skip (pre rest : list Festival) (t : Z) :
  (forall g, In g pre -> ~ contains g t) ->
  tag_festival_for_row (pre ++ rest) (Some t) = tag_festival_for_row rest (Some t).
Proof.
  induction pre as [|[[name fs] fe] pre IH]; intros Hno; [reflexivity|].
  cbn [app tag_festival_for_row].
  destruct (ts_le (Some fs) (Some t) && ts_le (Some t) (Some fe)) eqn:E.
  - exfalso. apply (Hno (name, fs, fe)); [now left|].
    now apply (contains_iff (name, fs, fe) t).
  - apply IH. intros g Hg. apply Hno. now right.
Qed.

Lemma tag_festival_for_row_first (pre post : list Festival) (f : Festival) (t : Z) :
  contains f t ->
  (forall g, In g pre -> ~ contains g t) ->
  tag_festival_for_row (pre ++ f :: post) (Some t) = fest_name f.
Proof.
  intros Hin Hno. rewrite tag_festival_for_row_skip by assumption.
  destruct f as [[name fs] fe]. cbn [tag_festival_for_row].
  apply (contains_iff (name, fs, fe) t) in Hin. cbn [fest_start fest_end fst snd] in Hin.
  now rewrite Hin.
Qed.

Lemma tag_festival_for_row_none (festivals : list Festival) (t : Z) :
  (forall g, In g festivals -> ~ contains g t) ->
  tag_festival_for_row festivals (Some t) = NON_FESTIVAL.
Proof.
  intros Hno. rewrite <- (app_nil_r festivals).
  now rewrite tag_festival_for_row_skip.
Qed.

(** C5. With a non-empty catalog, the column of tags has one tag per
    record; the tag of a record whose instant is missing is
    "Non-Festival"; otherwise it is the name of the first festival of the
    catalog whose closed interval holds the instant, and "Non-Festival"
    when no festival does. *)
Theorem tagger_first_containing_interval
  (festivals : list Festival) (df : list Row) (i : nat) (r : Row) :
  festivals <> [] ->
  nth_error df i = Some r ->
  exists tag,
    nth_error (festival_name_column festivals df) i = Some tag /\
    (call_ts r = None -> tag = "Non-Festival") /\
    (forall t pre f post,
        call_ts r = Some t ->
        festivals = pre ++ f :: post ->
        contains f t ->
        (forall g, In g pre -> ~ contains g t) ->
        tag = fest_name f) /\
    (forall t,
        call_ts r = Some t ->
        (forall g, In g festivals -> ~ contains g t) ->
        tag = "Non-Festival").
Proof.
  intros Hne Hr.
  exists (tag_festival_for_row festivals (call_ts r)).
  split.
  - destruct festivals as [|f0 rest]; [congruence|].
    unfold festival_name_column.
    rewrite nth_error_map, Hr. reflexivity.
  - split; [|split].
    + intros ->. apply tag_festival_for_row_NaT.
    + intros t pre f post -> -> Hin Hno.
      now apply tag_festival_for_row_first.
    + intros t -> Hno. now apply tag_festival_for_row_none.
Qed.

(** C6. Against the empty catalog every record of every data set is
    tagged "Non-Festival": the column has one tag per record and all of
    them are that text. *)
Theorem empty_catalog_all_non_festival (df : list Row) :
  List.length (festival_name_column [] df) = List.length df /\
  Forall (fun tag => tag = "Non-Festival") (festival_name_column [] df) /\
  Forall (fun r => tag_festival_for_row [] (call_ts r) = "Non-Festival") df.
Proof.
  unfold festival_name_column. rewrite length_map.
  split; [reflexivity|]. split.
  - apply Forall_forall. intros tag Hin.
    apply in_map_iff in Hin as [r [<- _]]. reflexivity.
  - apply Forall_forall. intros r _. reflexivity.
Qed.

(** ** Festival catalog *)

Lemma festival_of_event_spec (c : Component) (f : Festival) :
  festival_of_event c = Some f ->
  interval_of_event c f /\ fest_start f <= fest_end f.
Proof.
  unfold festival_of_event, interval_of_event.
  destruct (DTSTART c) as [dtstart|]; [|discriminate].
  destruct (DTEND c) as [dtend|]; [|discriminate].
  intros [= <-]. cbn [fest_name fest_start fest_end fst snd].
  split.
  - exists dtstart, dtend. repeat (split; [reflexivity|]).
    destruct dtstart as [d|t]; cbn [is_date_only];
      change NS_PER_DAY with 86400000000000;
      match goal with |- context [if ?b then _ else _] => destruct b eqn:E end;
      try apply Z.ltb_lt in E; try apply Z.ltb_ge in E; split; intros; lia || reflexivity.
  - destruct (_ <? _) eqn:E; [lia|]. now apply Z.ltb_ge in E.
Qed.

Lemma fetch_festivals_events (walk : list Component) (festivals : list Festival) :
  fetch_festivals_from_ics walk = Some festivals ->
  Forall2 (fun c f => festival_of_event c = Some f) (filter is_vevent walk) festivals.
Proof.
  revert festivals.
  induction walk as [|c rest IH]; simpl; intros festivals H.
  - injection H as <-. constructor.
  - unfold is_vevent at 1.
    destruct (String.eqb (comp_name c) "VEVENT").
    + destruct (festival_of_event c) as [f|] eqn:Hf; [|discriminate].
      destruct (fetch_festivals_from_ics rest) as [fs|]; [|discriminate].
      injection H as <-. constructor; auto.
    + auto.
Qed.

(** C7. When every VEVENT of the feed carries DTSTART and DTEND the
    catalog is produced, and whenever it is produced: it has one interval
    per VEVENT, in feed order; an event whose DTSTART is a plain date gets
    the end of the feed minus one day, an event with a timed DTSTART gets
    start and end as they are; an end that then lies before the start is
    replaced by the start; and so every interval has end >= start. *)
Theorem catalog_intervals_end_not_before_start (walk : list Component) :
  ((forall c, In c walk -> comp_name c = "VEVENT" ->
      DTSTART c <> None /\ DTEND c <> None) ->
   exists festivals, fetch_festivals_from_ics walk = Some festivals) /\
  (forall festivals,
      fetch_festivals_from_ics walk = Some festivals ->
      Forall2 interval_of_event (filter is_vevent walk) festivals /\
      Forall (fun f => fest_start f <= fest_end f) festivals).
Proof.
  split.
  - induction walk as [|c rest IH]; intros Hok; simpl.
    + now exists [].
    + destruct IH as [fs Hfs].
      { intros c' Hin. apply Hok. now right. }
      rewrite Hfs.
      destruct (String.eqb (comp_name c) "VEVENT") eqn:Hv; [|now exists fs].
      apply String.eqb_eq in Hv.
      destruct (Hok c (or_introl eq_refl) Hv) as [Hs He].
      unfold festival_of_event.
      destruct (DTSTART c); [|congruence].
      destruct (DTEND c); [|congruence].
      eexists. reflexivity.
  - intros festivals H. apply fetch_festivals_events in H.
    induction H as [|c f cs fs Hcf _ [IH1 IH2]].
    + split; constructor.
    + apply festival_of_event_spec in Hcf as [Hi Hle].
      split; constructor; assumption.
Qed.

(** ** Scorer: empty and missing data *)

Lemma filter_none {A : Type} (p : A -> bool) (l : list A) :
  (forall x, In x l -> p x = false) -> filter p l = [].
Proof.
  induction l as [|a l IH]; simpl; intros H; [reflexivity|].
  rewrite (H a) by now left. apply IH. intros x Hx. apply H. now right.
Qed.

(** C4. The scorer is a total function: on an absent record set and on an
    empty one it returns the empty list, and so it does on a record set
    none of whose categories equals the requested one once both are put in
    lower case. *)
Theorem scorer_empty_or_unmatched
  (festivals : list Festival) (cat : string) (threshold_pct : Q) (min_calls : Z) :
  filter_significant_festivals festivals None cat threshold_pct min_calls = [] /\
  filter_significant_festivals festivals (Some []) cat threshold_pct min_calls = [] /\
  (forall rows,
      (forall r, In r rows -> lower (astype_str (category r)) <> lower cat) ->
      filter_significant_festivals festivals (Some rows) cat threshold_pct min_calls = []).
Proof.
  split; [reflexivity|]. split; [reflexivity|].
  intros rows Hno. unfold filter_significant_festivals.
  destruct rows as [|r0 rows]; [reflexivity|].
  rewrite filter_none; [reflexivity|].
  intros r Hr. unfold category_matches.
  apply String.eqb_neq. now apply Hno.
Qed.

(** ** Normalizer: coordinates *)

Section NormalizerFacts.

Variable parse_datetime : string -> option Z.
Variable parse_numeric : string -> option float.

Let prep := preprocess parse_datetime parse_numeric.
Let prep_row := preprocess_row parse_datetime parse_numeric.
Let numeric := to_numeric_coerce parse_numeric.

Lemma preprocess_length (df : list RawRow) :
  List.length (prep df) = List.length df.
Proof. apply length_map. Qed.

Lemma preprocess_nth (df : list RawRow) (i : nat) (r : RawRow) :
  nth_error df i = Some r -> nth_error (prep df) i = Some (prep_row r).
Proof.
  intros H. unfold prep, preprocess. now rewrite nth_error_map, H.
Qed.

Lemma notna_iff (x : float) : notna x = true <-> x <> NaN.
Proof. destruct x; simpl; split; congruence. Qed.

Lemma unreadable_nan (v : raw_value) :
  unreadable parse_numeric v -> numeric v = NaN.
Proof.
  destruct v as [x|s|]; simpl; intros H; [contradiction | now rewrite H | reflexivity].
Qed.

(** C8 (amended). Row by row of the normalized table, [has_coords] is
    true exactly when latitude and longitude both parse to a number that
    is not NaN (an infinite value counts as a number); a missing value or
    a text that is not a number, in either column, gives [has_coords =
    false], and the row is still there. *)
Theorem has_coords_iff_both_not_nan (df : list RawRow) (i : nat) (r : RawRow) :
  nth_error df i = Some r ->
  exists row,
    nth_error (prep df) i = Some row /\
    caller_lat row = numeric (raw_caller_lat r) /\
    caller_lon row = numeric (raw_caller_lon r) /\
    (has_coords row = true <-> caller_lat row <> NaN /\ caller_lon row <> NaN) /\
    (unreadable parse_numeric (raw_caller_lat r) \/
     unreadable parse_numeric (raw_caller_lon r) ->
     has_coords row = false).
Proof.
  intros Hr. exists (prep_row r).
  split; [now apply preprocess_nth|].
  split; [reflexivity|]. split; [reflexivity|].
  unfold prep_row, preprocess_row. cbn [has_coords caller_lat caller_lon].
  split.
  - rewrite andb_true_iff, !notna_iff. reflexivity.
  - intros [H | H]; apply unreadable_nan in H; unfold numeric in H; rewrite H;
      [reflexivity | apply andb_false_r].
Qed.

End NormalizerFacts.

(** C8 as stated fails: with an infinite latitude [has_coords] is true
    although the latitude is not a finite number. *)
Lemma has_coords_infinite_latitude :
  let row := preprocess_row (fun _ => None) (fun _ => None) infinite_latitude_row in
  ~ (has_coords row = true <->
     is_finite (caller_lat row) = true /\ is_finite (caller_lon row) = true).
Proof.
  simpl. intros [H _]. destruct (H eq_refl) as [Hlat _]. discriminate.
Qed.

Lemma has_coords_iff_both_not_nan_witness :
  exists row,
    nth_error (preprocess (fun _ => None) (fun _ => None) [infinite_latitude_row]) 0
    = Some row /\ has_coords row = true.
Proof.
  destruct (has_coords_iff_both_not_nan (fun _ => None) (fun _ => None)
              [infinite_latitude_row] 0 infinite_latitude_row eq_refl)
    as [row [Hn [Hlat [Hlon [Hiff _]]]]].
  exists row. split; [exact Hn|].
  apply Hiff. rewrite Hlat, Hlon. split; discriminate.
Defined.

(** ** Category distribution *)

Lemma cell_eqb_eq (a b : cell) : cell_eqb a b = true <-> a = b.
Proof.
  destruct a as [s|], b as [t|]; simpl; try (split; congruence).
  rewrite String.eqb_eq. split; congruence.
Qed.

Lemma cell_eqb_refl (a : cell) : cell_eqb a a = true.
Proof. now apply cell_eqb_eq. Qed.

Lemma cell_eqb_sym (a b : cell) : cell_eqb a b = cell_eqb b a.
Proof.
  destruct (cell_eqb a b) eqn:E1, (cell_eqb b a) eqn:E2; try reflexivity.
  - apply cell_eqb_eq in E1. subst. now rewrite cell_eqb_refl in E2.
  - apply cell_eqb_eq in E2. subst. now rewrite cell_eqb_refl in E1.
Qed.

Lemma bump_cell_keys (c x : cell) (t : list (cell * Z)) :
  In x (map fst (bump_cell c t)) <-> x = c \/ In x (map fst t).
Proof.
  induction t as [|[c' n] t IH]; simpl.
  - intuition.
  - destruct (cell_eqb c c') eqn:E; simpl.
    + apply cell_eqb_eq in E. subst. intuition.
    + rewrite IH. intuition.
Qed.

Lemma bump_cell_nodup (c : cell) (t : list (cell * Z)) :
  NoDup (map fst t) -> NoDup (map fst (bump_cell c t)).
Proof.
  induction t as [|[c' n] t IH]; simpl; intros Hnd.
  - constructor; [tauto | constructor].
  - inversion Hnd as [|? ? Hnotin Hnd']; subst.
    destruct (cell_eqb c c') eqn:E; simpl.
    + constructor; assumption.
    + constructor; [|auto].
      rewrite bump_cell_keys. intros [-> | H]; [|tauto].
      now rewrite cell_eqb_refl in E.
Qed.

Lemma cell_get_bump (c x : cell) (t : list (cell * Z)) :
  cell_get (bump_cell c t) x = (if cell_eqb x c then 1 else 0) + cell_get t x.
Proof.
  induction t as [|[c' n] t IH]; simpl.
  - destruct (cell_eqb x c); reflexivity.
  - destruct (cell_eqb c c') eqn:E; simpl.
    + apply cell_eqb_eq in E. subst c'.
      destruct (cell_eqb x c); lia.
    + destruct (cell_eqb x c') eqn:E'.
      * apply cell_eqb_eq in E'. subst c'.
        rewrite cell_eqb_sym, E. lia.
      * exact IH.
Qed.

Lemma fold_bump_cell (col : list cell) (acc : list (cell * Z)) :
  let t := fold_left (fun t c => bump_cell c t) col acc in
  (NoDup (map fst acc) -> NoDup (map fst t)) /\
  (forall x, In x (map fst t) <-> In x col \/ In x (map fst acc)) /\
  (forall x, cell_get t x = count_cell col x + cell_get acc x).
Proof.
  revert acc. induction col as [|c col IH]; intros acc; simpl.
  - repeat split; auto; tauto.
  - destruct (IH (bump_cell c acc)) as [H1 [H2 H3]]. simpl in H1, H2, H3.
    split; [|split].
    + intros Hnd. apply H1. now apply bump_cell_nodup.
    + intros x. rewrite H2, bump_cell_keys. intuition.
    + intros x. rewrite H3, cell_get_bump. unfold count_cell. simpl.
      destruct (cell_eqb x c); simpl List.length; lia.
Qed.

Lemma nodup_keys_get (t : list (cell * Z)) (c : cell) (n : Z) :
  NoDup (map fst t) -> In (c, n) t -> cell_get t c = n.
Proof.
  induction t as [|[c' n'] t IH]; simpl; intros Hnd Hin; [contradiction|].
  inversion Hnd as [|? ? Hnotin Hnd']; subst.
  destruct Hin as [[= -> ->] | Hin].
  - now rewrite cell_eqb_refl.
  - destruct (cell_eqb c c') eqn:E.
    + apply cell_eqb_eq in E. subst c'. exfalso. apply Hnotin.
      apply in_map_iff. now exists (c, n).
    + auto.
Qed.

Lemma insert_desc_perm (e : cell * Z) (l : list (cell * Z)) :
  Permutation (insert_desc e l) (e :: l).
Proof.
  induction l as [|x l IH]; simpl; [reflexivity|].
  destruct (snd e <? snd x); [|reflexivity].
  rewrite IH. apply perm_swap.
Qed.

Lemma sort_desc_perm (l : list (cell * Z)) : Permutation (sort_desc l) l.
Proof.
  induction l as [|e l IH]; simpl; [reflexivity|].
  rewrite insert_desc_perm. now constructor.
Qed.

Lemma value_counts_in (col : list cell) (c : cell) (n : Z) :
  In (c, n) (value_counts col) <-> In c col /\ n = count_cell col c.
Proof.
  unfold value_counts.
  destruct (fold_bump_cell col []) as [H1 [H2 H3]]. simpl in H1, H2, H3.
  set (t := fold_left (fun t c => bump_cell c t) col []) in *.
  assert (Hnd : NoDup (map fst t)) by (apply H1; constructor).
  split.
  - intros Hin. apply (Permutation_in _ (sort_desc_perm t)) in Hin.
    split.
    + assert (Hk : In c (map fst t)) by (apply in_map_iff; now exists (c, n)).
      apply H2 in Hk. tauto.
    + rewrite <- (nodup_keys_get t c n Hnd Hin), H3. simpl. lia.
  - intros [Hin ->].
    apply (Permutation_in _ (Permutation_sym (sort_desc_perm t))).
    assert (Hk : In c (map fst t)) by (apply H2; now left).
    apply in_map_iff in Hk as [[c' n'] [Hc Hin']]. simpl in Hc. subst c'.
    pose proof (nodup_keys_get t c n' Hnd Hin') as Hget.
    rewrite H3 in Hget. simpl in Hget.
    replace (count_cell col c) with n' by lia. exact Hin'.
Qed.

Lemma count_cell_pos (col : list cell) (c : cell) : In c col -> 0 < count_cell col c.
Proof.
  unfold count_cell. induction col as [|x col IH]; simpl; intros Hin; [contradiction|].
  destruct (cell_eqb c x) eqn:E; simpl List.length; [lia|].
  destruct Hin as [-> | Hin]; [now rewrite cell_eqb_refl in E | auto].
Qed.

Lemma category_distribution_in (df : list Row) (c : cell) (n : Z) (p : Q) :
  In (c, n, p) (category_distribution df) ->
  In c (map category df) /\ n = count_cell (map category df) c.
Proof.
  unfold category_distribution. intros Hin.
  apply in_map_iff in Hin as [[c' n'] [Heq Hin]]. simpl in Heq.
  injection Heq as -> -> _. now apply value_counts_in.
Qed.

Lemma category_distribution_bucket (df : list Row) (c : cell) :
  In c (map category df) ->
  exists p, In (c, count_cell (map category df) c, p) (category_distribution df).
Proof.
  intros Hin. unfold category_distribution.
  eexists. apply in_map_iff.
  exists (c, count_cell (map category df) c). split; [reflexivity|].
  now apply value_counts_in.
Qed.

Section NanCategory.

Variable parse_datetime : string -> option Z.
Variable parse_numeric : string -> option float.

Let prep := preprocess parse_datetime parse_numeric.
Let prep_row := preprocess_row parse_datetime parse_numeric.

Lemma preprocess_category_is_text (df : list RawRow) (c : cell) :
  In c (map category (prep df)) -> exists s, c = CStr s.
Proof.
  unfold prep, preprocess. rewrite map_map. intros Hin.
  apply in_map_iff in Hin as [r [<- _]]. simpl. eauto.
Qed.

(** C10. A raw row whose category is missing stays in the normalized
    table, at its place, with the text "nan" as category; the mask of the
    scorer for the category "nan" keeps it; the category distribution has
    a bucket under the text "nan" that counts it, and no bucket under a
    missing value. *)
Theorem missing_category_becomes_text_nan (df : list RawRow) (i : nat) (r : RawRow) :
  nth_error df i = Some r ->
  raw_category r = CNaN ->
  let norm := prep df in
  List.length norm = List.length df /\
  (exists row,
      nth_error norm i = Some row /\
      category row = CStr "nan" /\
      category_matches "nan" row = true /\
      In row (filter (category_matches "nan") norm)) /\
  (exists p,
      In (CStr "nan", count_cell (map category norm) (CStr "nan"), p)
         (category_distribution norm)) /\
  0 < count_cell (map category norm) (CStr "nan") /\
  (forall n p, ~ In (CNaN, n, p) (category_distribution norm)).
Proof.
  intros Hr Hcat norm.
  assert (Hrow : nth_error norm i = Some (prep_row r)).
  { unfold norm, prep, preprocess. now rewrite nth_error_map, Hr. }
  assert (Hc : category (prep_row r) = CStr "nan").
  { unfold prep_row, preprocess_row. cbn [category]. now rewrite Hcat. }
  assert (Hm : category_matches "nan" (prep_row r) = true).
  { unfold category_matches. now rewrite Hc. }
  assert (Hin : In (CStr "nan") (map category norm)).
  { rewrite <- Hc. apply in_map. eapply nth_error_In. exact Hrow. }
  split; [apply length_map|]. split; [|split; [|split]].
  - exists (prep_row r). repeat (split; [assumption|]).
    apply filter_In. split; [|assumption].
    eapply nth_error_In. exact Hrow.
  - now apply category_distribution_bucket.
  - now apply count_cell_pos.
  - intros n p Hbad. apply category_distribution_in in Hbad as [Hbad _].
    apply preprocess_category_is_text in Hbad as [s Hs]. discriminate.
Qed.

End NanCategory.

(** ** Scorer in exact arithmetic: the percentage is bounded below *)






(** ** Scorer: one festival, then the list *)

Lemma in_interval_range (f : Festival) (d : Z) :
  in_interval f d <->
  ts_date (fest_start f) <= d
  < Z.max (ts_date (fest_start f)) (ts_date (fest_end f) + 1).
Proof. unfold in_interval. lia. Qed.

Lemma scorer_result_origin (festivals : list Festival) (df : option (list Row))
  (cat : string) (threshold_pct : Q) (min_calls : Z) (r : SignificanceResult) :
  In r (filter_significant_festivals festivals df cat threshold_pct min_calls) ->
  exists rows f,
    df = Some rows /\ In f festivals /\
    score_festival (counts_of rows cat) threshold_pct min_calls f = Some r.
Proof.
  unfold filter_significant_festivals, counts_of.
  destruct df as [rows|]; [|contradiction].
  destruct rows as [|r0 rows]; [contradiction|].
  destruct (filter (category_matches cat) (r0 :: rows)) eqn:E; [contradiction|].
  rewrite <- E. intros Hin. apply in_flat_map in Hin as [f [Hf Hr]].
  exists (r0 :: rows), f. repeat split; try assumption.
  destruct (score_festival _ _ _ f) as [r'|]; simpl in Hr; [|contradiction].
  destruct Hr as [-> | []]. reflexivity.
Qed.

Lemma result_of_inj (f g : Festival) (r : SignificanceResult) :
  result_of f r -> result_of g r -> f = g.
Proof.
  destruct f as [[n1 s1] e1], g as [[n2 s2] e2].
  unfold result_of. cbn [fest_name fest_start fest_end fst snd].
  intros (H1 & H2 & H3) (H4 & H5 & H6). congruence.
Qed.


(** ** Scorer: the baseline against its description *)

Lemma sorted_series_in (t : Series) (k n : Z) :
  sorted_series t ->
  (In (k, n) t <-> In k (map fst t) /\ series_get t k 0 = n).
Proof.
  induction 1 as [|k' n' t Hn Hlow Hs IH]; simpl; [tauto|].
  destruct (k =? k') eqn:E.
  - apply Z.eqb_eq in E. subst k'. split.
    + intros [[= ->] | Hin]; [auto|].
      exfalso. assert (k < k); [|lia].
      apply Hlow. apply in_map_iff. now exists (k, n).
    + intros [_ ->]. now left.
  - apply Z.eqb_neq in E. rewrite IH. split.
    + intros [[= -> _] | H]; [congruence | tauto].
    + intros [[-> | H] Hg]; [congruence | tauto].
Qed.


Lemma permutation_filter {A : Type} (p : A -> bool) (l l' : list A) :
  Permutation l l' -> Permutation (filter p l) (filter p l').
Proof.
  induction 1 as [|x l l' _ IH|x y l|l l' l'' _ IH1 _ IH2]; simpl.
  - constructor.
  - destruct (p x); [now constructor | assumption].
  - destruct (p x), (p y); try reflexivity. apply perm_swap.
  - now transitivity (filter p l').
Qed.











(** ** The statements on the worked inputs *)

Lemma scorer_empty_or_unmatched_witness :
  filter_significant_festivals [example_festival]
    (Some [example_row 0 "medical"; example_row 1 "fire"]) "crime" (30 # 1) 5 = [].
Proof.
  apply (scorer_empty_or_unmatched [example_festival] "crime" (30 # 1) 5).
  intros r [<- | [<- | []]]; discriminate.
Defined.

Lemma tagger_first_containing_interval_witness :
  exists tag,
    nth_error (festival_name_column example_catalog [example_row 1 "crime"]) 0
    = Some tag /\ tag = "Diwali".
Proof.
  destruct (tagger_first_containing_interval example_catalog
              [example_row 1 "crime"] 0 (example_row 1 "crime"))
    as [tag [Hnth [_ [Hfirst _]]]].
  - discriminate.
  - reflexivity.
  - exists tag. split; [exact Hnth|].
    apply (Hfirst (date_to_datetime 1 + 10 * NS_PER_HOUR) []
             ("Diwali", date_to_datetime 0, date_to_datetime 2)
             [("Fair", date_to_datetime 1, date_to_datetime 5)]).
    + reflexivity.
    + reflexivity.
    + vm_compute. split; discriminate.
    + intros g [].
Defined.

Example example_walk_catalog :
  fetch_festivals_from_ics example_walk
  = Some [("Diwali", date_to_datetime 10, date_to_datetime 10);
          ("Procession", 500, 500)].
Proof. reflexivity. Qed.

Lemma catalog_intervals_end_not_before_start_witness :
  exists festivals,
    fetch_festivals_from_ics example_walk = Some festivals /\
    Forall (fun f => fest_start f <= fest_end f) festivals.
Proof.
  destruct (catalog_intervals_end_not_before_start example_walk) as [Htotal Hinv].
  destruct Htotal as [festivals Hf].
  - intros c [<- | [<- | [<- | []]]] Hv; try discriminate; split; discriminate.
  - exists festivals. split; [exact Hf|]. apply (Hinv festivals Hf).
Defined.

Lemma missing_category_becomes_text_nan_witness :
  exists row,
    nth_error (preprocess (fun _ => None) (fun _ => None) example_raw) 1 = Some row /\
    category row = CStr "nan" /\
    category_matches "nan" row = true.
Proof.
  destruct (missing_category_becomes_text_nan (fun _ => None) (fun _ => None)
              example_raw 1 (nth 1 example_raw infinite_latitude_row)
              eq_refl eq_refl)
    as [_ [[row [Hnth [Hcat [Hm _]]]] _]].
  exists row. auto.
Defined.

(** * Further properties *)

(** ** Count tables are canonical *)

Lemma sorted_series_below (t : Series) (k : Z) :
  (forall k', In k' (map fst t) -> k < k') -> series_get t k 0 = 0.
Proof.
  intros Hlow. apply series_get_absent. intros Hin.
  specialize (Hlow k Hin). lia.
Qed.

Lemma sorted_series_head_pos (k n : Z) (t : Series) :
  sorted_series ((k, n) :: t) -> 0 < series_get ((k, n) :: t) k 0.
Proof.
  intros Hs. inversion Hs; subst. simpl. now rewrite Z.eqb_refl.
Qed.

(** Two count tables with the same counts are the same table. *)
Lemma sorted_series_ext (t t' : Series) :
  sorted_series t -> sorted_series t' ->
  (forall k, series_get t k 0 = series_get t' k 0) -> t = t'.
Proof.
  intros Hs. revert t'.
  induction Hs as [|k n t Hn Hlow Hs IH]; intros t' Hs' Heq.
  - destruct t' as [|[k' n'] t']; [reflexivity|].
    pose proof (sorted_series_head_pos _ _ _ Hs') as Hp.
    rewrite <- Heq in Hp. simpl in Hp. lia.
  - destruct Hs' as [|k' n' t' Hn' Hlow' Hs'].
    + specialize (Heq k). simpl in Heq. rewrite Z.eqb_refl in Heq. lia.
    + assert (Hk : k = k').
      { destruct (Z.lt_trichotomy k k') as [Hlt | [-> | Hgt]]; [|reflexivity|].
        - specialize (Heq k). simpl in Heq. rewrite Z.eqb_refl in Heq.
          destruct (k =? k') eqn:E; [apply Z.eqb_eq in E; lia|].
          rewrite sorted_series_below in Heq; [lia|].
          intros x Hx. specialize (Hlow' x Hx). lia.
        - specialize (Heq k'). simpl in Heq. rewrite Z.eqb_refl in Heq.
          destruct (k' =? k) eqn:E; [apply Z.eqb_eq in E; lia|].
          rewrite sorted_series_below in Heq; [lia|].
          intros x Hx. specialize (Hlow x Hx). lia. }
      subst k'.
      assert (Hnn : n = n').
      { specialize (Heq k). simpl in Heq. now rewrite Z.eqb_refl in Heq. }
      subst n'. f_equal. apply IH; [assumption|].
      intros x. destruct (Z.eq_dec x k) as [-> | Hne].
      * now rewrite !sorted_series_below.
      * specialize (Heq x). simpl in Heq.
        apply Z.eqb_neq in Hne. now rewrite Hne in Heq.
Qed.

Lemma count_key_permutation (keys keys' : list (option Z)) (k : Z) :
  Permutation keys keys' -> count_key keys k = count_key keys' k.
Proof.
  intros P. unfold count_key. f_equal.
  apply Permutation_length. now apply permutation_filter.
Qed.

Lemma groupby_size_permutation (keys keys' : list (option Z)) :
  Permutation keys keys' -> groupby_size keys = groupby_size keys'.
Proof.
  intros P. apply sorted_series_ext; try apply groupby_size_sorted.
  intros k. rewrite !groupby_size_get. now apply count_key_permutation.
Qed.

(** ** Daily aggregation *)

Lemma insert_by_key_below (k n : Z) (t : Series) :
  (forall k', In k' (map fst t) -> k < k') -> insert_by_key (k, n) t = (k, n) :: t.
Proof.
  destruct t as [|[k' n'] t]; [reflexivity|]. simpl. intros Hlow.
  assert (k < k') by (apply Hlow; now left).
  destruct (k <=? k') eqn:E; [reflexivity | apply Z.leb_gt in E; lia].
Qed.

Lemma sort_values_sorted (t : Series) : sorted_series t -> sort_values t = t.
Proof.
  induction 1 as [|k n t Hn Hlow Hs IH]; [reflexivity|].
  unfold sort_values in *. simpl. rewrite IH. now apply insert_by_key_below.
Qed.

Lemma agg_calls_by_day_eq (df : list Row) :
  agg_calls_by_day df = groupby_size (map date df).
Proof. apply sort_values_sorted, groupby_size_sorted. Qed.

Lemma count_key_pos_iff (keys : list (option Z)) (k : Z) :
  0 < count_key keys k <-> In (Some k) keys.
Proof.
  split.
  - unfold count_key. induction keys as [|[x|] keys IH]; simpl; intros Hpos.
    + lia.
    + destruct (x =? k) eqn:E; [apply Z.eqb_eq in E; subst; now left | auto].
    + auto.
  - unfold count_key. induction keys as [|[x|] keys IH]; simpl; intros Hin.
    + contradiction.
    + destruct (x =? k) eqn:E; simpl List.length; [lia|].
      destruct Hin as [[= ->] | Hin]; [now rewrite Z.eqb_refl in E | auto].
    + destruct Hin as [Hin | Hin]; [discriminate | auto].
Qed.

Lemma groupby_size_sum (keys : list (option Z)) :
  series_sum (groupby_size keys)
  = Z.of_nat (List.length (filter (fun o => match o with Some _ => true | None => false end) keys)).
Proof.
  assert (Hb : forall k t, series_sum (bump k t) = series_sum t + 1).
  { intros k t. unfold series_sum.
    induction t as [|[k' n] t IH]; cbn [bump fold_right snd]; [reflexivity|].
    destruct (k <? k'); cbn [fold_right snd]; [lia|].
    destruct (k =? k'); cbn [fold_right snd]; lia. }
  induction keys as [|[x|] keys IH]; cbn [groupby_size filter];
    [reflexivity | | assumption].
  rewrite Hb, IH. cbn [List.length]. lia.
Qed.

(** X1. The daily aggregation lists the dates that occur, strictly
    ascending, each once and with the number of its records (no day
    without a record is filled in); the counts add up to the number of
    records that have a date; and sorting the grouped table changes
    nothing. *)
Theorem agg_calls_by_day_rows (df : list Row) :
  sorted_series (agg_calls_by_day df) /\
  (forall d n, In (d, n) (agg_calls_by_day df)
               <-> 0 < n /\ n = count_key (map date df) d) /\
  series_sum (agg_calls_by_day df)
  = Z.of_nat (List.length (filter (fun r => match date r with
                                             | Some _ => true
                                             | None => false
                                             end) df)) /\
  agg_calls_by_day df = groupby_size (map date df).
Proof.
  rewrite agg_calls_by_day_eq.
  split; [apply groupby_size_sorted|]. split; [|split; [|reflexivity]].
  - intros d n.
    rewrite (sorted_series_in _ d n (groupby_size_sorted _)).
    rewrite groupby_size_keys, groupby_size_get, <- count_key_pos_iff.
    split; [intros [Hp <-] | intros [Hp ->]]; auto.
  - rewrite groupby_size_sum. f_equal.
    induction df as [|r df IH]; [reflexivity|].
    cbn [map filter]. destruct (date r); cbn [List.length]; now rewrite IH.
Qed.

(** ** The scorer and the order, the category and the number of records *)

Lemma scorer_unfold (festivals : list Festival) (rows : list Row) (cat : string)
  (threshold_pct : Q) (min_calls : Z) :
  filter_significant_festivals festivals (Some rows) cat threshold_pct min_calls
  = match filter (category_matches cat) rows with
    | [] => []
    | _ :: _ => scored_list festivals (counts_of rows cat) threshold_pct min_calls
    end.
Proof.
  unfold filter_significant_festivals, counts_of, scored_list.
  destruct rows as [|r rows]; reflexivity.
Qed.

Lemma filter_idem {A : Type} (p : A -> bool) (l : list A) :
  filter p (filter p l) = filter p l.
Proof.
  induction l as [|a l IH]; [reflexivity|]. simpl.
  destruct (p a) eqn:E; simpl; [rewrite E; now f_equal | exact IH].
Qed.

Lemma counts_of_permutation_rows (rows rows' : list Row) (cat : string) :
  Permutation rows rows' -> counts_of rows cat = counts_of rows' cat.
Proof.
  intros P. unfold counts_of. apply groupby_size_permutation.
  now apply Permutation_map, permutation_filter.
Qed.

(** ** The order of float64 values *)

Ltac sf_signs :=
  repeat match goal with
         | s : bool |- _ => destruct s
         end;
  simpl in *; try congruence.

Ltac sf_compare :=
  repeat match goal with
         | |- context [Z.compare ?a ?b] => destruct (Z.compare_spec a b)
         | H : context [Z.compare ?a ?b] |- _ => destruct (Z.compare_spec a b)
         | |- context [Pos.compare_cont Eq ?a ?b] =>
             change (Pos.compare_cont Eq a b) with (Pos.compare a b);
             destruct (Pos.compare_spec a b)
         | H : context [Pos.compare_cont Eq ?a ?b] |- _ =>
             change (Pos.compare_cont Eq a b) with (Pos.compare a b) in H;
             destruct (Pos.compare_spec a b)
         end;
  simpl in *; subst; try congruence; try lia.


Lemma SFltb_leb_trans (a b c : spec_float) :
  SFltb a b = true -> SFleb b c = true -> SFltb a c = true.
Proof.
  unfold SFleb, SFltb.
  destruct a as [sa|sa| |sa ma ea], b as [sb|sb| |sb mb eb], c as [sc|sc| |sc mc ec];
    sf_signs; sf_compare.
Qed.

Lemma SFleb_ltb_trans (a b c : spec_float) :
  SFleb a b = true -> SFltb b c = true -> SFltb a c = true.
Proof.
  unfold SFleb, SFltb.
  destruct a as [sa|sa| |sa ma ea], b as [sb|sb| |sb mb eb], c as [sc|sc| |sc mc ec];
    sf_signs; sf_compare.
Qed.

Lemma SFltb_leb (a b : spec_float) : SFltb a b = true -> SFleb a b = true.
Proof. unfold SFleb, SFltb. destruct (SFcompare a b) as [[]|]; congruence. Qed.

Lemma SFleb_refl (a : spec_float) : F64.is_number a = true -> SFleb a a = true.
Proof.
  unfold SFleb. destruct a as [sa|sa| |sa ma ea]; sf_signs; sf_compare.
Qed.


Lemma SFltb_number (a b : spec_float) :
  SFltb a b = true -> F64.is_number a = true /\ F64.is_number b = true.
Proof. unfold SFltb. destruct a, b; simpl; try discriminate; auto. Qed.

(** Two numbers are always comparable. *)
Lemma SFltb_false_leb (a b : spec_float) :
  F64.is_number a = true -> F64.is_number b = true ->
  SFltb a b = false -> SFleb b a = true.
Proof.
  unfold SFleb, SFltb.
  destruct a as [sa|sa| |sa ma ea], b as [sb|sb| |sb mb eb]; sf_signs; sf_compare.
Qed.

Lemma SFltb_not_leb (a b : spec_float) : SFltb a b = true -> SFleb b a = false.
Proof.
  unfold SFleb, SFltb.
  destruct a as [sa|sa| |sa ma ea], b as [sb|sb| |sb mb eb]; sf_signs; sf_compare.
Qed.

(** ** The scorer in binary64: the loop over the days of one festival *)

Lemma f64_init_number : F64.is_number (F64.max_pct F64.peak_init) = true.
Proof. reflexivity. Qed.

Lemma f64_scan_step_inv (counts : Series) (min_calls lo cur : Z) (st : F64.Peak) :
  lo <= cur ->
  F64.scan_inv counts min_calls lo cur st ->
  F64.scan_inv counts min_calls lo (cur + 1) (F64.scan_step counts min_calls cur st).
Proof.
  intros Hlo Hinv. unfold F64.scan_step.
  destruct (min_calls <=? day_count counts cur) eqn:Hc; cbn [andb].
  - apply Z.leb_le in Hc.
    destruct (SFltb (F64.max_pct st) (F64.pct counts cur)) eqn:Hp.
    + unfold F64.scan_inv in *. cbn [F64.max_day F64.max_pct F64.max_count].
      destruct (F64.max_day st) as [m|].
      * destruct Hinv as (Hm & Hcm & Hmp & Hmc & Hinit & Hle & Hlt). rewrite Hmp in Hp.
        assert (Hcur : SFltb (F64.max_pct F64.peak_init) (F64.pct counts cur) = true)
          by (eapply SFltb_leb_trans; [exact Hinit | now apply SFltb_leb]).
        split; [lia|]. split; [assumption|]. split; [reflexivity|].
        split; [reflexivity|]. split; [exact Hcur|].
        split; intros d' Hd' Hc' Hn.
        -- destruct (Z.eq_dec d' cur) as [-> | Hne]; [now apply SFleb_refl|].
           apply SFltb_leb. eapply SFleb_ltb_trans; [|exact Hp].
           apply Hle; [lia | assumption | assumption].
        -- eapply SFleb_ltb_trans; [|exact Hp].
           apply Hle; [lia | assumption | assumption].
      * destruct Hinv as (Hmp & Hno). rewrite Hmp in Hp.
        split; [lia|]. split; [assumption|]. split; [reflexivity|].
        split; [reflexivity|]. split; [exact Hp|].
        assert (Hbelow : forall d', lo <= d' < cur -> min_calls <= day_count counts d' ->
                  F64.is_number (F64.pct counts d') = true ->
                  SFltb (F64.pct counts d') (F64.pct counts cur) = true).
        { intros d' Hd' Hc' Hn. eapply SFleb_ltb_trans; [|exact Hp].
          apply SFltb_false_leb; [apply f64_init_number | exact Hn |].
          now apply Hno. }
        split; intros d' Hd' Hc' Hn.
        -- destruct (Z.eq_dec d' cur) as [-> | Hne]; [now apply SFleb_refl|].
           apply SFltb_leb. apply Hbelow; [lia | assumption | assumption].
        -- apply Hbelow; [lia | assumption | assumption].
    + unfold F64.scan_inv in *.
      destruct (F64.max_day st) as [m|].
      * destruct Hinv as (Hm & Hcm & Hmp & Hmc & Hinit & Hle & Hlt). rewrite Hmp in Hp.
        split; [lia|]. repeat (split; [assumption|]).
        split; [|assumption].
        intros d' Hd' Hc' Hn.
        destruct (Z.eq_dec d' cur) as [-> | Hne].
        -- apply SFltb_false_leb; [|exact Hn | exact Hp].
           now apply SFltb_number in Hinit.
        -- apply Hle; [lia | assumption | assumption].
      * destruct Hinv as (Hmp & Hno). split; [assumption|].
        intros d' Hd' Hc'.
        destruct (Z.eq_dec d' cur) as [-> | Hne]; [now rewrite <- Hmp | apply Hno; [lia | assumption]].
  - apply Z.leb_gt in Hc.
    unfold F64.scan_inv in *.
    destruct (F64.max_day st) as [m|].
    + destruct Hinv as (Hm & Hcm & Hmp & Hmc & Hinit & Hle & Hlt).
      split; [lia|]. repeat (split; [assumption|]).
      split; [|assumption].
      intros d' Hd' Hc' Hn.
      destruct (Z.eq_dec d' cur) as [-> | Hne]; [lia|].
      apply Hle; [lia | assumption | assumption].
    + destruct Hinv as (Hmp & Hno). split; [assumption|].
      intros d' Hd' Hc'.
      destruct (Z.eq_dec d' cur) as [-> | Hne]; [lia | apply Hno; [lia | assumption]].
Qed.

Lemma f64_scan_days_inv (counts : Series) (min_calls lo : Z) (n : nat) :
  forall (cur : Z) (st : F64.Peak),
    lo <= cur ->
    F64.scan_inv counts min_calls lo cur st ->
    F64.scan_inv counts min_calls lo (cur + Z.of_nat n)
      (F64.scan_days counts min_calls n cur st).
Proof.
  induction n as [|n IH]; intros cur st Hlo Hinv.
  - simpl. now rewrite Z.add_0_r.
  - cbn [F64.scan_days].
    replace (cur + Z.of_nat (S n)) with (cur + 1 + Z.of_nat n) by lia.
    apply IH; [lia|]. now apply f64_scan_step_inv.
Qed.

Lemma f64_scan_festival_inv (counts : Series) (min_calls s e : Z) :
  F64.scan_inv counts min_calls s (Z.max s (e + 1))
    (F64.scan_days counts min_calls (Z.to_nat (e + 1 - s)) s F64.peak_init).
Proof.
  replace (Z.max s (e + 1)) with (s + Z.of_nat (Z.to_nat (e + 1 - s))) by lia.
  apply f64_scan_days_inv; [lia|].
  unfold F64.scan_inv. cbn [F64.max_day F64.peak_init].
  split; [reflexivity | intros d Hd; lia].
Qed.

(** ** The scorer in binary64: one festival, then the list *)

Lemma f64_score_festival_some (counts : Series) (threshold_pct : F64.float64)
  (min_calls : Z) (f : Festival) (r : F64.SignificanceResult) :
  F64.score_festival counts threshold_pct min_calls f = Some r ->
  F64.result_of f r /\
  exists d,
    F64.is_peak counts min_calls f d /\
    SFleb threshold_pct (F64.pct counts d) = true /\
    SFltb (F64.max_pct F64.peak_init) (F64.pct counts d) = true /\
    F64.r_max_day r = date_to_datetime d /\
    F64.r_max_pct r = F64.pct counts d /\
    F64.r_max_count r = day_count counts d.
Proof.
  destruct f as [[name start_ts] end_ts]. unfold F64.score_festival.
  pose proof (f64_scan_festival_inv counts min_calls (ts_date start_ts) (ts_date end_ts))
    as Hinv.
  set (st := F64.scan_days counts min_calls _ _ F64.peak_init) in *.
  unfold F64.scan_inv in Hinv.
  destruct (F64.max_day st) as [d|]; [|discriminate].
  destruct (SFleb threshold_pct (F64.max_pct st)) eqn:Hth; [|discriminate].
  intros [= <-].
  destruct Hinv as (Hd & Hc & Hmp & Hmc & Hinit & Hle & Hlt).
  split; [repeat split|].
  exists d. cbn [F64.r_max_day F64.r_max_pct F64.r_max_count].
  rewrite Hmp in Hth.
  split; [|auto 6].
  split; [apply in_interval_range; exact Hd|].
  split; [assumption|].
  split; [now apply SFltb_number in Hinit|]. split.
  - intros d' Hd'. apply in_interval_range in Hd'. now apply Hle.
  - intros d' Hd' Hc' Hn Hlt'. apply in_interval_range in Hd'.
    apply Hlt; [|assumption|assumption]. cbn [fest_start fest_end fst snd] in Hd'. lia.
Qed.


Lemma f64_scorer_unfold (festivals : list Festival) (rows : list Row) (cat : string)
  (threshold_pct : F64.float64) (min_calls : Z) :
  F64.filter_significant_festivals festivals (Some rows) cat threshold_pct min_calls
  = match filter (category_matches cat) rows with
    | [] => []
    | _ :: _ =>
        flat_map (fun f => option_to_list
                             (F64.score_festival (counts_of rows cat)
                                threshold_pct min_calls f)) festivals
    end.
Proof.
  unfold F64.filter_significant_festivals, counts_of.
  destruct rows as [|r rows]; reflexivity.
Qed.

Lemma f64_scorer_result_origin (festivals : list Festival) (df : option (list Row))
  (cat : string) (threshold_pct : F64.float64) (min_calls : Z)
  (r : F64.SignificanceResult) :
  In r (F64.filter_significant_festivals festivals df cat threshold_pct min_calls) ->
  exists rows f,
    df = Some rows /\ In f festivals /\
    F64.score_festival (counts_of rows cat) threshold_pct min_calls f = Some r.
Proof.
  destruct df as [rows|]; [|contradiction].
  rewrite f64_scorer_unfold.
  destruct (filter (category_matches cat) rows); [contradiction|].
  intros Hin. apply in_flat_map in Hin as [f [Hf Hr]].
  exists rows, f. repeat split; try assumption.
  destruct (F64.score_festival _ _ _ f) as [r'|]; simpl in Hr; [|contradiction].
  destruct Hr as [-> | []]. reflexivity.
Qed.



Lemma f64_scorer_permutation (festivals : list Festival) (rows rows' : list Row)
  (cat : string) (threshold_pct : F64.float64) (min_calls : Z) :
  Permutation rows rows' ->
  F64.filter_significant_festivals festivals (Some rows) cat threshold_pct min_calls
  = F64.filter_significant_festivals festivals (Some rows') cat threshold_pct min_calls.
Proof.
  intros P.
  rewrite !f64_scorer_unfold, (counts_of_permutation_rows rows rows' cat P).
  pose proof (permutation_filter (category_matches cat) _ _ P) as Pf.
  destruct (filter (category_matches cat) rows) as [|a l].
  - apply Permutation_nil in Pf. now rewrite Pf.
  - destruct (filter (category_matches cat) rows') as [|a' l']; [|reflexivity].
    apply Permutation_sym, Permutation_nil in Pf. discriminate.
Qed.


(** C2. Percentages are the float64 values the code computes. Every
    result of the scorer belongs to a festival of the input and reports
    its peak: a day of the interval with [day_count >= min_calls] whose
    percentage is at least that of every such day and strictly above that
    of every earlier such day, so that among equal percentages the earliest
    date is reported (a percentage that is NaN compares with nothing); the
    reported percentage and count are those of that day. The list does not
    depend on the order in which the records come. *)
Theorem peak_day_is_earliest_maximum
  (festivals : list Festival) (df : option (list Row)) (cat : string)
  (threshold_pct : F64.float64) (min_calls : Z) (r : F64.SignificanceResult) :
  In r (F64.filter_significant_festivals festivals df cat threshold_pct min_calls) ->
  (exists f d,
      In f festivals /\ F64.result_of f r /\
      let counts := counts_of (rows_of df) cat in
      F64.is_peak counts min_calls f d /\
      F64.r_max_day r = date_to_datetime d /\
      F64.r_max_pct r = F64.pct counts d /\
      F64.r_max_count r = day_count counts d) /\
  (forall rows rows',
      df = Some rows -> Permutation rows rows' ->
      F64.filter_significant_festivals festivals (Some rows') cat threshold_pct min_calls
      = F64.filter_significant_festivals festivals df cat threshold_pct min_calls).
Proof.
  intros Hr. split.
  - apply f64_scorer_result_origin in Hr as (rows & f & -> & Hf & Hscore).
    apply f64_score_festival_some in Hscore
      as [Hof (d & Hpk & _ & _ & Hday & Hp & Hc)].
    exists f, d. cbn [rows_of]. auto 10.
  - intros rows rows' -> P. symmetry. now apply f64_scorer_permutation.
Qed.

(** ** The scorer in binary64 on the worked inputs *)

Example example_scored :
  F64.filter_significant_festivals [example_festival] (Some example_rows) "crime"
    (F64.of_int 30) 5
  = [example_result].
Proof. vm_compute. reflexivity. Qed.

(** Days 1 and 2 get the same float, below that of day 0. *)
Example example_percentages :
  let p := F64.pct (counts_of example_rows "crime") in
  p 0 = F64.of_int 50 /\ p 1 = p 2 /\ SFltb (p 1) (p 0) = true /\
  SFltb (F64.of_int 33) (p 1) = true /\ SFltb (p 1) (F64.of_int 34) = true.
Proof. vm_compute. repeat split. Qed.

(** Rounding decides at the threshold: the Monday of day 4 is 30 percent
    above its baseline in exact arithmetic, and the float falls short of
    30.0, so the code returns nothing. *)
Example monday_below_threshold :
  let f : Festival := ("Fair", date_to_datetime 4, date_to_datetime 4) in
  F64.filter_significant_festivals [f] (Some monday_rows) "crime" (F64.of_int 30) 5 = [] /\
  day_count (counts_of monday_rows "crime") 4 = 7 /\
  Qeq (pct (counts_of monday_rows "crime") 4) (30 # 1) /\
  SFltb (F64.pct (counts_of monday_rows "crime") 4) (F64.of_int 30) = true.
Proof. vm_compute. repeat split. Qed.

(** Rounding decides between equal percentages: days 0 and 1 are both 50
    percent above their baselines in exact arithmetic, the float of day 1
    is the larger one, and the code reports day 1. *)
Example thursday_friday_peak :
  let f : Festival := ("Fair", date_to_datetime 0, date_to_datetime 1) in
  let counts := counts_of thursday_friday_rows "crime" in
  map F64.r_max_day
    (F64.filter_significant_festivals [f] (Some thursday_friday_rows) "crime"
       (F64.of_int 30) 1)
  = [date_to_datetime 1] /\
  Qeq (pct counts 0) (pct counts 1) /\
  F64.pct counts 0 = F64.of_int 50 /\
  SFltb (F64.pct counts 0) (F64.pct counts 1) = true.
Proof. vm_compute. repeat split. Qed.



Lemma peak_day_is_earliest_maximum_witness :
  exists f d,
    In f [example_festival] /\ F64.result_of f example_result /\
    let counts := counts_of example_rows "crime" in
    F64.is_peak counts 5 f d /\
    F64.r_max_day example_result = date_to_datetime d /\
    F64.r_max_pct example_result = F64.pct counts d /\
    F64.r_max_count example_result = day_count counts d.
Proof.
  apply (peak_day_is_earliest_maximum [example_festival] (Some example_rows)
           "crime" (F64.of_int 30) 5 example_result).
  rewrite example_scored. now left.
Defined.

(** X2. The order of the records does not matter: a record set and any
    rearrangement of it give the same significance results, the same daily
    table and the same hourly table. *)
Theorem row_order_is_irrelevant
  (festivals : list Festival) (rows rows' : list Row) (cat : string)
  (threshold_pct : Q) (min_calls : Z) :
  Permutation rows rows' ->
  filter_significant_festivals festivals (Some rows) cat threshold_pct min_calls
  = filter_significant_festivals festivals (Some rows') cat threshold_pct min_calls /\
  agg_calls_by_day rows = agg_calls_by_day rows' /\
  agg_calls_by_hour rows = agg_calls_by_hour rows'.
Proof.
  intros P. split; [|split].
  - rewrite !scorer_unfold, (counts_of_permutation_rows rows rows' cat P).
    pose proof (permutation_filter (category_matches cat) _ _ P) as Pf.
    destruct (filter (category_matches cat) rows) as [|a l].
    + apply Permutation_nil in Pf. now rewrite Pf.
    + destruct (filter (category_matches cat) rows') as [|a' l']; [|reflexivity].
      apply Permutation_sym, Permutation_nil in Pf. discriminate.
  - rewrite !agg_calls_by_day_eq. apply groupby_size_permutation.
    now apply Permutation_map.
  - rewrite !agg_calls_by_hour_eq. apply map_ext. intros h. f_equal.
    apply count_key_permutation. now apply Permutation_map.
Qed.

(** X3. Only the records of the requested category reach the scorer:
    dropping all other records beforehand leaves the result list as it
    is. *)
Theorem scorer_ignores_other_categories
  (festivals : list Festival) (rows : list Row) (cat : string)
  (threshold_pct : Q) (min_calls : Z) :
  filter_significant_festivals festivals (Some (filter (category_matches cat) rows))
    cat threshold_pct min_calls
  = filter_significant_festivals festivals (Some rows) cat threshold_pct min_calls.
Proof.
  rewrite !scorer_unfold. unfold counts_of. now rewrite !filter_idem.
Qed.

Lemma score_festival_festival (counts : Series) (threshold_pct : Q) (min_calls : Z)
  (f : Festival) (r : SignificanceResult) :
  score_festival counts threshold_pct min_calls f = Some r -> festival_of_result r = f.
Proof.
  destruct f as [[name s] e]. unfold score_festival.
  destruct (max_day _); [|discriminate].
  destruct (Qle_bool _ _); [|discriminate].
  now intros [= <-].
Qed.

Lemma scored_list_festivals (festivals : list Festival) (counts : Series)
  (threshold_pct : Q) (min_calls : Z) :
  map festival_of_result (scored_list festivals counts threshold_pct min_calls)
  = filter (fun f => match score_festival counts threshold_pct min_calls f with
                     | Some _ => true
                     | None => false
                     end) festivals.
Proof.
  unfold scored_list. induction festivals as [|f festivals IH]; [reflexivity|].
  cbn [flat_map filter]. rewrite map_app, IH.
  destruct (score_festival counts threshold_pct min_calls f) as [r|] eqn:E;
    [|reflexivity].
  cbn [option_to_list map app]. now rewrite (score_festival_festival _ _ _ _ _ E).
Qed.

(** X4. The results follow the catalog: read as festivals, the result list
    is the catalog with some entries left out, nothing reordered, added or
    repeated; it is never longer than the catalog, and two equal catalog
    entries are both reported or both left out. *)
Theorem results_follow_catalog
  (festivals : list Festival) (df : option (list Row)) (cat : string)
  (threshold_pct : Q) (min_calls : Z) :
  let results := filter_significant_festivals festivals df cat threshold_pct min_calls in
  map festival_of_result results
  = filter (is_significant df cat threshold_pct min_calls) festivals /\
  (List.length results <= List.length festivals)%nat.
Proof.
  intros results.
  assert (H : map festival_of_result results
              = filter (is_significant df cat threshold_pct min_calls) festivals).
  { unfold results, is_significant.
    destruct df as [rows|]; cbn [rows_of].
    - rewrite scorer_unfold.
      destruct (filter (category_matches cat) rows) as [|a l] eqn:E.
      + assert (Hex : existsb (category_matches cat) rows = false).
        { destruct (existsb (category_matches cat) rows) eqn:Hex; [|reflexivity].
          apply existsb_exists in Hex as [x [Hin Hm]].
          assert (In x (filter (category_matches cat) rows)) by (apply filter_In; auto).
          rewrite E in H. contradiction. }
        rewrite Hex. cbn [andb map].
        symmetry. apply filter_none. reflexivity.
      + assert (Hex : existsb (category_matches cat) rows = true).
        { apply existsb_exists. exists a.
          assert (Ha : In a (filter (category_matches cat) rows)) by (rewrite E; now left).
          apply filter_In in Ha. tauto. }
        rewrite Hex. cbn [andb]. apply scored_list_festivals.
    - cbn [existsb andb]. symmetry. apply filter_none. reflexivity. }
  split; [exact H|].
  rewrite <- (length_map festival_of_result), H. apply filter_length_le.
Qed.

Lemma score_festival_inverted (counts : Series) (threshold_pct : Q) (min_calls : Z)
  (f : Festival) :
  ts_date (fest_end f) < ts_date (fest_start f) ->
  score_festival counts threshold_pct min_calls f = None.
Proof.
  destruct f as [[name s] e]. cbn [fest_start fest_end fst snd]. intros Hinv.
  unfold score_festival.
  replace (Z.to_nat (ts_date e + 1 - ts_date s)) with O by lia.
  reflexivity.
Qed.

(** X5. A festival whose end date lies before its start date is never
    reported, whatever the records and the parameters: its loop over the
    days does not run. *)
Theorem inverted_interval_never_significant
  (festivals : list Festival) (df : option (list Row)) (cat : string)
  (threshold_pct : Q) (min_calls : Z) (f : Festival) :
  ts_date (fest_end f) < ts_date (fest_start f) ->
  ~ exists r,
      In r (filter_significant_festivals festivals df cat threshold_pct min_calls) /\
      result_of f r.
Proof.
  intros Hinv [r [Hr Hof]].
  apply scorer_result_origin in Hr as (rows & g & -> & _ & Hscore).
  assert (g = f).
  { apply score_festival_festival in Hscore. subst g.
    destruct f as [[name s] e], Hof as (H1 & H2 & H3).
    unfold festival_of_result. cbn [fest_name fest_start fest_end fst snd] in *.
    congruence. }
  subst g. rewrite (score_festival_inverted _ _ _ f Hinv) in Hscore. discriminate.
Qed.

(** ** The baseline is at least one *)







(** ** The catalog restricted to the selected window *)

Lemma tag_festival_for_row_cons (f : Festival) (rest : list Festival) (t : Z) :
  tag_festival_for_row (f :: rest) (Some t)
  = if (fest_start f <=? t) && (t <=? fest_end f) then fest_name f
    else tag_festival_for_row rest (Some t).
Proof. destruct f as [[name fs] fe]. reflexivity. Qed.

(** X7. For a record whose instant lies in the selected window, the
    catalog restricted to the festivals that overlap the window gives the
    tag that the whole catalog gives; a record without instant is
    "Non-Festival" under both. *)
Theorem window_restriction_keeps_tags
  (start_sel end_sel : Z) (all_festivals : list Festival) (t : Z) :
  start_sel <= t <= end_sel ->
  tag_festival_for_row (festivals_in_range start_sel end_sel all_festivals) (Some t)
  = tag_festival_for_row all_festivals (Some t) /\
  tag_festival_for_row (festivals_in_range start_sel end_sel all_festivals) None
  = tag_festival_for_row all_festivals None.
Proof.
  intros Ht. split; [|now rewrite !tag_festival_for_row_NaT].
  unfold festivals_in_range.
  induction all_festivals as [|f rest IH]; [reflexivity|].
  cbn [filter]. rewrite (tag_festival_for_row_cons f rest).
  destruct ((start_sel <=? fest_end f) && (fest_start f <=? end_sel)) eqn:Hov.
  - rewrite tag_festival_for_row_cons, IH. reflexivity.
  - rewrite IH.
    destruct ((fest_start f <=? t) && (t <=? fest_end f)) eqn:Hin; [|reflexivity].
    apply andb_true_iff in Hin as [H1 H2]. apply Z.leb_le in H1, H2.
    apply andb_false_iff in Hov as [Hov | Hov]; apply Z.leb_gt in Hov; lia.
Qed.

(** ** All-day events: the last day *)

Lemma ts_date_midnight (d : Z) : ts_date (date_to_datetime d) = d.
Proof.
  unfold ts_date, date_to_datetime. apply Z.div_mul. discriminate.
Qed.

(** X8. An all-day event of the feed that covers the days [d] to [e - 1]
    becomes the interval from midnight of [d] to midnight of [e - 1]. So
    the tagger, which compares instants, leaves a call made later on the
    last day outside the festival, while the scorer, which walks dates,
    counts that day as a day of the festival. *)
Theorem all_day_event_last_day
  (c : Component) (d e : Z) (f : Festival) (t : Z) :
  DTSTART c = Some (ICalDate d) ->
  DTEND c = Some (ICalDate e) ->
  d < e ->
  festival_of_event c = Some f ->
  ts_date t = e - 1 ->
  date_to_datetime (e - 1) < t ->
  fest_start f = date_to_datetime d /\
  fest_end f = date_to_datetime (e - 1) /\
  ~ contains f t /\
  tag_festival_for_row [f] (Some t) = "Non-Festival" /\
  in_interval f (ts_date t).
Proof.
  intros Hs He Hde Hf Hday Hlate.
  unfold festival_of_event in Hf. rewrite Hs, He in Hf.
  cbn [to_datetime is_date_only] in Hf.
  assert (Hend : date_to_datetime e - 1 * NS_PER_DAY = date_to_datetime (e - 1))
    by (unfold date_to_datetime; lia).
  rewrite Hend in Hf.
  assert (Hle : date_to_datetime d <= date_to_datetime (e - 1)).
  { unfold date_to_datetime. apply Z.mul_le_mono_nonneg_r; [discriminate | lia]. }
  destruct (date_to_datetime (e - 1) <? date_to_datetime d) eqn:E;
    [apply Z.ltb_lt in E; lia|].
  injection Hf as <-. cbn [fest_start fest_end fst snd].
  split; [reflexivity|]. split; [reflexivity|].
  assert (Hnot : ~ contains (summary_str (SUMMARY c), date_to_datetime d,
                             date_to_datetime (e - 1)) t).
  { unfold contains. cbn [fest_start fest_end fst snd]. lia. }
  split; [exact Hnot|]. split.
  - now apply tag_festival_for_row_none; intros g [<- | []].
  - unfold in_interval. cbn [fest_start fest_end fst snd].
    rewrite !ts_date_midnight. lia.
Qed.

(** ** A defective event loses the catalog *)

(** X9. A VEVENT without DTSTART or DTEND, wherever it stands in the
    feed, makes the reading of the feed fail; the dashboard then works
    with the empty catalog, so one defective event discards every festival
    of the feed. *)
Theorem defective_event_loses_catalog (walk : list Component) (c : Component) :
  In c walk ->
  comp_name c = "VEVENT" ->
  DTSTART c = None \/ DTEND c = None ->
  fetch_festivals_from_ics walk = None /\ all_festivals_of walk = [].
Proof.
  intros Hin Hv Hd.
  assert (Hnone : fetch_festivals_from_ics walk = None).
  { induction walk as [|c' rest IH]; [contradiction|].
    cbn [fetch_festivals_from_ics].
    destruct Hin as [-> | Hin].
    - apply String.eqb_eq in Hv. rewrite Hv. unfold festival_of_event.
      destruct Hd as [-> | ->]; [reflexivity | now destruct (DTSTART c)].
    - rewrite (IH Hin).
      destruct (String.eqb (comp_name c') "VEVENT"); [|reflexivity].
      now destruct (festival_of_event c'). }
  split; [exact Hnone|]. unfold all_festivals_of. now rewrite Hnone.
Qed.

Lemma defective_event_loses_catalog_witness :
  let holi := {| comp_name := "VEVENT"; SUMMARY := Some "Holi";
                 DTSTART := Some (ICalDate 20); DTEND := None |} in
  fetch_festivals_from_ics (example_walk ++ [holi]) = None /\
  all_festivals_of (example_walk ++ [holi]) = [].
Proof.
  intros holi.
  apply (defective_event_loses_catalog (example_walk ++ [holi]) holi).
  - apply in_or_app. right. left. reflexivity.
  - reflexivity.
  - right. reflexivity.
Defined.

(** ** Normalizer: the fields derived from the instant *)

Lemma ts_hour_range (t : Z) : 0 <= ts_hour t <= 23.
Proof.
  unfold ts_hour.
  assert (H : 0 <= t mod NS_PER_DAY < NS_PER_DAY) by (apply Z.mod_pos_bound; reflexivity).
  split.
  - apply Z.div_pos; [lia | reflexivity].
  - assert ((t mod NS_PER_DAY) / NS_PER_HOUR < 24); [|lia].
    apply Z.div_lt_upper_bound; [reflexivity|].
    change (NS_PER_HOUR * 24) with NS_PER_DAY. lia.
Qed.

Lemma ts_date_hour_bounds (t : Z) :
  date_to_datetime (ts_date t) + ts_hour t * NS_PER_HOUR <= t
  < date_to_datetime (ts_date t) + (ts_hour t + 1) * NS_PER_HOUR.
Proof.
  unfold date_to_datetime, ts_date, ts_hour.
  pose proof (Z.div_mod t NS_PER_DAY ltac:(discriminate)) as H1.
  pose proof (Z.div_mod (t mod NS_PER_DAY) NS_PER_HOUR ltac:(discriminate)) as H2.
  pose proof (Z.mod_pos_bound (t mod NS_PER_DAY) NS_PER_HOUR ltac:(reflexivity)) as H3.
  lia.
Qed.

Lemma weekday_range (d : Z) : 0 <= weekday d <= 6.
Proof.
  unfold weekday.
  pose proof (Z.mod_pos_bound (d + 3) 7 ltac:(reflexivity)). lia.
Qed.

Lemma day_name_cases (t : Z) :
  In (day_name t) DAY_NAMES /\
  (isin_weekend (CStr (day_name t)) = true <-> 5 <= weekday (ts_date t)).
Proof.
  unfold day_name. pose proof (weekday_range (ts_date t)) as Hw.
  assert (Hc : weekday (ts_date t) = 0 \/ weekday (ts_date t) = 1 \/
               weekday (ts_date t) = 2 \/ weekday (ts_date t) = 3 \/
               weekday (ts_date t) = 4 \/ weekday (ts_date t) = 5 \/
               weekday (ts_date t) = 6) by lia.
  destruct Hc as [-> | [-> | [-> | [-> | [-> | [-> | ->]]]]]];
    (split; [simpl; tauto | simpl; split; [try discriminate; lia | try lia; reflexivity]]).
Qed.

(** X10. In a normalized row whose instant parsed, the date and the hour
    are those of the instant: the hour lies in 0..23 and the instant lies
    within that hour of that date; the weekday name is one of the seven
    names, and the weekend flag is set exactly on Saturday and Sunday.
    When the instant did not parse the row is kept with no date, no hour,
    no weekday name and the weekend flag off. *)
Theorem derived_time_fields
  (parse_datetime : string -> option Z) (parse_numeric : string -> option float)
  (r : RawRow) :
  let row := preprocess_row parse_datetime parse_numeric r in
  call_ts row = to_datetime_coerce parse_datetime (raw_call_ts r) /\
  match call_ts row with
  | Some t =>
      exists d h,
        date row = Some d /\ hour row = Some h /\
        0 <= h <= 23 /\
        date_to_datetime d + h * NS_PER_HOUR <= t
        < date_to_datetime d + (h + 1) * NS_PER_HOUR /\
        (exists s, weekday_name row = CStr s /\ In s DAY_NAMES) /\
        (is_weekend row = true <->
         weekday_name row = CStr "Saturday" \/ weekday_name row = CStr "Sunday") /\
        (is_weekend row = true <-> 5 <= weekday d)
  | None =>
      date row = None /\ hour row = None /\
      weekday_name row = CNaN /\ is_weekend row = false
  end.
Proof.
  intros row. unfold row, preprocess_row.
  cbn [call_ts date hour weekday_name is_weekend].
  split; [reflexivity|].
  destruct (to_datetime_coerce parse_datetime (raw_call_ts r)) as [t|];
    [|repeat split].
  exists (ts_date t), (ts_hour t). cbn [option_map].
  split; [reflexivity|]. split; [reflexivity|].
  split; [apply ts_hour_range|]. split; [apply ts_date_hour_bounds|].
  destruct (day_name_cases t) as [Hin Hwe].
  split; [exists (day_name t); auto|]. split; [|exact Hwe].
  unfold isin_weekend. rewrite orb_true_iff, !String.eqb_eq.
  split; intros [H | H]; [left | right | left | right]; congruence.
Qed.

(** ** Normalizer: the text columns *)

Lemma lower_char_idem (c : ascii) : lower_char (lower_char c) = lower_char c.
Proof. destruct c as [[] [] [] [] [] [] [] []]; reflexivity. Qed.

Lemma is_space_lower_char (c : ascii) : is_space (lower_char c) = is_space c.
Proof. destruct c as [[] [] [] [] [] [] [] []]; reflexivity. Qed.

Lemma lower_idem (s : string) : lower (lower s) = lower s.
Proof.
  induction s as [|c s IH]; [reflexivity|].
  cbn [lower]. now rewrite lower_char_idem, IH.
Qed.

Lemma lstrip_lower (s : string) : lstrip (lower s) = lower (lstrip s).
Proof.
  induction s as [|c s IH]; [reflexivity|].
  cbn [lower lstrip]. rewrite is_space_lower_char.
  destruct (is_space c); [exact IH | reflexivity].
Qed.

Lemma rstrip_lower (s : string) : rstrip (lower s) = lower (rstrip s).
Proof.
  induction s as [|c s IH]; [reflexivity|].
  cbn [lower rstrip]. rewrite IH, is_space_lower_char.
  destruct (rstrip s) as [|c' r]; cbn [lower]; [|reflexivity].
  destruct (is_space c); reflexivity.
Qed.

Lemma strip_lower (s : string) : strip (lower s) = lower (strip s).
Proof. unfold strip. now rewrite lstrip_lower, rstrip_lower. Qed.

Lemma lstrip_no_leading_space (s : string) : no_leading_space (lstrip s).
Proof.
  induction s as [|c s IH]; [exact I|].
  cbn [lstrip]. destruct (is_space c) eqn:E; [exact IH | exact E].
Qed.

Lemma lstrip_fixed (s : string) : no_leading_space s -> lstrip s = s.
Proof.
  destruct s as [|c s]; [reflexivity|]. simpl. now intros ->.
Qed.

Lemma rstrip_no_leading_space (s : string) :
  no_leading_space s -> no_leading_space (rstrip s).
Proof.
  destruct s as [|c s]; [trivial|]. cbn [no_leading_space rstrip]. intros Hc.
  destruct (rstrip s); [rewrite Hc|]; exact Hc.
Qed.

Lemma rstrip_idem (s : string) : rstrip (rstrip s) = rstrip s.
Proof.
  induction s as [|c s IH]; [reflexivity|].
  cbn [rstrip]. destruct (rstrip s) as [|c' r] eqn:E.
  - destruct (is_space c) eqn:Hc; [reflexivity|].
    cbn [rstrip]. now rewrite Hc.
  - change (rstrip (String c (String c' r)))
      with (match rstrip (String c' r) with
            | EmptyString => if is_space c then EmptyString else String c EmptyString
            | String a b => String c (String a b)
            end).
    now rewrite IH.
Qed.

Lemma strip_idem (s : string) : strip (strip s) = strip s.
Proof.
  unfold strip.
  rewrite (lstrip_fixed (rstrip (lstrip s))).
  - apply rstrip_idem.
  - apply rstrip_no_leading_space, lstrip_no_leading_space.
Qed.

(** X11. In a normalized row the category is a text without white space
    at either end and without upper-case letter, the jurisdiction a text
    without white space at either end; the mask of the scorer is then the
    plain equality with the requested category in lower case; and
    normalizing the normalized texts once more changes nothing. *)
Theorem normalized_text_columns
  (parse_datetime : string -> option Z) (parse_numeric : string -> option float)
  (r : RawRow) :
  let row := preprocess_row parse_datetime parse_numeric r in
  exists s j,
    category row = CStr s /\ jurisdiction row = CStr j /\
    strip s = s /\ lower s = s /\ strip j = j /\
    (forall cat, category_matches cat row = String.eqb s (lower cat)) /\
    let again :=
      preprocess_row parse_datetime parse_numeric
        {| raw_call_id := raw_call_id r;
           raw_call_ts := raw_call_ts r;
           raw_caller_lat := raw_caller_lat r;
           raw_caller_lon := raw_caller_lon r;
           raw_category := category row;
           raw_jurisdiction := jurisdiction row |} in
    category again = category row /\ jurisdiction again = jurisdiction row.
Proof.
  intros row. unfold row, preprocess_row. cbn [category jurisdiction].
  set (s := lower (strip (astype_str (raw_category r)))).
  set (j := strip (astype_str (raw_jurisdiction r))).
  assert (Hs : strip s = s) by (unfold s; now rewrite strip_lower, strip_idem).
  assert (Hl : lower s = s) by (unfold s; apply lower_idem).
  assert (Hj : strip j = j) by (unfold j; apply strip_idem).
  exists s, j. repeat (split; [reflexivity || assumption|]).
  split.
  - intros cat. unfold category_matches. cbn [category astype_str]. now rewrite Hl.
  - cbn [raw_category raw_jurisdiction astype_str]. now rewrite Hs, Hl, Hj.
Qed.

(** ** Hourly aggregation: nothing is lost but the rows without hour *)

Lemma series_sum_map (f : Z -> Z) (l : list Z) :
  series_sum (map (fun h => (h, f h)) l) = sum_over f l.
Proof.
  unfold series_sum, sum_over. induction l as [|h l IH]; [reflexivity|].
  cbn [map fold_right snd]. now rewrite IH.
Qed.

Lemma sum_over_ext (f g : Z -> Z) (l : list Z) :
  (forall h, f h = g h) -> sum_over f l = sum_over g l.
Proof.
  intros H. unfold sum_over. induction l as [|h l IH]; [reflexivity|].
  cbn [fold_right]. now rewrite H, IH.
Qed.

Lemma sum_over_plus (f g : Z -> Z) (l : list Z) :
  sum_over (fun h => f h + g h) l = sum_over f l + sum_over g l.
Proof.
  unfold sum_over. induction l as [|h l IH]; [reflexivity|].
  cbn [fold_right]. rewrite IH. lia.
Qed.

Lemma sum_over_indicator (x : Z) (a n : nat) :
  sum_over (fun h => if x =? h then 1 else 0) (map Z.of_nat (seq a n))
  = if (Z.of_nat a <=? x) && (x <? Z.of_nat (a + n)) then 1 else 0.
Proof.
  revert a. induction n as [|n IH]; intros a.
  - cbn [seq map sum_over fold_right]. rewrite Nat.add_0_r.
    destruct (Z.of_nat a <=? x) eqn:E1, (x <? Z.of_nat a) eqn:E2; try reflexivity.
    apply Z.leb_le in E1. apply Z.ltb_lt in E2. lia.
  - cbn [seq map]. unfold sum_over in *. cbn [fold_right]. rewrite IH.
    destruct (x =? Z.of_nat a) eqn:E0;
      destruct (Z.of_nat (S a) <=? x) eqn:E1;
      destruct (x <? Z.of_nat (S a + n)) eqn:E2;
      destruct (Z.of_nat a <=? x) eqn:E3;
      destruct (x <? Z.of_nat (a + S n)) eqn:E4; cbn [andb]; try reflexivity;
      rewrite ?Z.eqb_eq, ?Z.eqb_neq, ?Z.leb_le, ?Z.leb_gt, ?Z.ltb_lt, ?Z.ltb_ge in *;
      lia.
Qed.

Lemma hourly_sum (keys : list (option Z)) :
  sum_over (count_key keys) range24
  = Z.of_nat (List.length (filter hour_in_day keys)).
Proof.
  induction keys as [|k keys IH]; [reflexivity|].
  transitivity (sum_over (fun h => count_key keys h
                                   + match k with
                                     | Some x => if x =? h then 1 else 0
                                     | None => 0
                                     end) range24).
  - apply sum_over_ext. intros h. unfold count_key. cbn [filter].
    destruct k as [x|]; [|lia]. destruct (x =? h); cbn [List.length]; lia.
  - rewrite sum_over_plus, IH. cbn [filter]. destruct k as [x|]; cbn [hour_in_day].
    + unfold range24. rewrite (sum_over_indicator x 0 24).
      change (Z.of_nat 0) with 0. change (Z.of_nat (0 + 24)) with 24.
      destruct ((0 <=? x) && (x <? 24)); cbn [List.length]; lia.
    + replace (sum_over (fun _ => 0) range24) with 0 by reflexivity. lia.
Qed.

Lemma filter_map_length {A B : Type} (f : A -> B) (p : B -> bool) (l : list A) :
  List.length (filter p (map f l)) = List.length (filter (fun a => p (f a)) l).
Proof.
  induction l as [|a l IH]; [reflexivity|].
  cbn [map filter]. destruct (p (f a)); cbn [List.length]; now rewrite IH.
Qed.

(** X12. The 24 hourly counts add up to the number of records whose hour is
    one of 0..23; on a normalized table that is the number of records
    whose instant parsed, so only records without a readable instant are
    missing from the hourly table. *)
Theorem hourly_counts_add_up
  (parse_datetime : string -> option Z) (parse_numeric : string -> option float)
  (df : list Row) (raw : list RawRow) :
  series_sum (agg_calls_by_hour df)
  = Z.of_nat (List.length (filter (fun r => hour_in_day (hour r)) df)) /\
  series_sum (agg_calls_by_hour (preprocess parse_datetime parse_numeric raw))
  = Z.of_nat (List.length
      (filter (fun r => match to_datetime_coerce parse_datetime (raw_call_ts r) with
                        | Some _ => true
                        | None => false
                        end) raw)).
Proof.
  assert (H : forall rows, series_sum (agg_calls_by_hour rows)
              = Z.of_nat (List.length (filter (fun r => hour_in_day (hour r)) rows))).
  { intros rows. rewrite agg_calls_by_hour_eq, series_sum_map, hourly_sum.
    now rewrite filter_map_length. }
  split; [apply H|].
  rewrite H. unfold preprocess. f_equal.
  rewrite (filter_map_length (preprocess_row parse_datetime parse_numeric)
             (fun r => hour_in_day (hour r))).
  f_equal. apply filter_ext. intros r. unfold preprocess_row. cbn [hour].
  destruct (to_datetime_coerce parse_datetime (raw_call_ts r)) as [t|]; [|reflexivity].
  cbn [option_map hour_in_day]. pose proof (ts_hour_range t) as Hh.
  apply andb_true_iff. rewrite Z.leb_le, Z.ltb_lt. lia.
Qed.

(** ** Category distribution: buckets, order, shares *)

Lemma cell_counts_sum_bump (c : cell) (t : list (cell * Z)) :
  cell_counts_sum (bump_cell c t) = cell_counts_sum t + 1.
Proof.
  unfold cell_counts_sum.
  induction t as [|[c' n] t IH]; cbn [bump_cell fold_right snd]; [reflexivity|].
  destruct (cell_eqb c c'); cbn [fold_right snd]; lia.
Qed.

Lemma cell_counts_sum_fold (col : list cell) (acc : list (cell * Z)) :
  cell_counts_sum (fold_left (fun t c => bump_cell c t) col acc)
  = cell_counts_sum acc + Z.of_nat (List.length col).
Proof.
  revert acc. induction col as [|c col IH]; intros acc; cbn [fold_left List.length].
  - lia.
  - rewrite IH, cell_counts_sum_bump. lia.
Qed.

Lemma cell_counts_sum_permutation (t t' : list (cell * Z)) :
  Permutation t t' -> cell_counts_sum t = cell_counts_sum t'.
Proof.
  unfold cell_counts_sum.
  induction 1 as [|x l l' _ IH|x y l|l l' l'' _ IH1 _ IH2]; cbn [fold_right]; lia.
Qed.

Lemma value_counts_sum (col : list cell) :
  cell_counts_sum (value_counts col) = Z.of_nat (List.length col).
Proof.
  unfold value_counts.
  rewrite (cell_counts_sum_permutation _ _ (sort_desc_perm _)).
  now rewrite cell_counts_sum_fold.
Qed.

Lemma value_counts_nodup (col : list cell) : NoDup (map fst (value_counts col)).
Proof.
  unfold value_counts.
  eapply Permutation_NoDup.
  - apply Permutation_map, Permutation_sym, sort_desc_perm.
  - destruct (fold_bump_cell col []) as [H _]. apply H. constructor.
Qed.

Lemma insert_desc_descending (e : cell * Z) (l : list (cell * Z)) :
  descending l -> descending (insert_desc e l).
Proof.
  unfold descending. induction 1 as [|x l Hs IH Hall]; cbn [insert_desc].
  - constructor; constructor.
  - destruct (snd e <? snd x) eqn:E.
    + apply Z.ltb_lt in E. constructor; [exact IH|].
      apply (Permutation_Forall (Permutation_sym (insert_desc_perm e l))).
      constructor; [lia | exact Hall].
    + apply Z.ltb_ge in E. constructor; [now constructor|].
      constructor; [exact E|].
      eapply Forall_impl; [|exact Hall]. intros a Ha. cbn beta in *. lia.
Qed.

Lemma sort_desc_descending (l : list (cell * Z)) : descending (sort_desc l).
Proof.
  induction l as [|e l IH]; [constructor|].
  cbn [sort_desc fold_right]. now apply insert_desc_descending.
Qed.

Lemma pct_sum_shares (total : Q) (counts : list (cell * Z)) :
  (pct_sum (map (fun e => (fst e, snd e, inject_Z (snd e) / total * (100 # 1))) counts)
   == inject_Z (cell_counts_sum counts) / total * (100 # 1))%Q.
Proof.
  unfold pct_sum, cell_counts_sum.
  induction counts as [|e counts IH]; cbn [map fold_right snd].
  - unfold Qdiv. change (inject_Z 0) with 0%Q. ring.
  - rewrite IH, inject_Z_plus. unfold Qdiv. ring.
Qed.

(** X13. The category distribution has one row per distinct category of
    the table (a missing value being a category of its own when the table
    is not normalized), each with the number of its records; the counts
    add up to the number of records and come largest first. *)
Theorem category_distribution_buckets (df : list Row) :
  let counts := map fst (category_distribution df) in
  NoDup (map fst counts) /\
  (forall c n, In (c, n) counts <->
               In c (map category df) /\ n = count_cell (map category df) c) /\
  cell_counts_sum counts = Z.of_nat (List.length df) /\
  descending counts.
Proof.
  intros counts.
  assert (Hc : counts = value_counts (map category df)).
  { unfold counts, category_distribution. rewrite map_map. cbn [fst].
    rewrite <- (map_id (value_counts (map category df))) at 2.
    apply map_ext. now intros [c n]. }
  rewrite Hc. split; [apply value_counts_nodup|].
  split; [intros c n; apply value_counts_in|].
  split; [now rewrite value_counts_sum, length_map|].
  apply sort_desc_descending.
Qed.

(** X14. The distribution of an empty table is empty; otherwise the share
    of a row is its count over the number of records times 100, and the
    shares add up to 100. *)
Theorem category_distribution_shares (df : list Row) :
  (df = [] <-> category_distribution df = []) /\
  (forall c n p, In (c, n, p) (category_distribution df) ->
                 p = (inject_Z n / inject_Z (Z.of_nat (List.length df)) * (100 # 1))%Q) /\
  (df <> [] -> (pct_sum (category_distribution df) == 100 # 1)%Q).
Proof.
  pose proof (value_counts_sum (map category df)) as Hsum.
  rewrite length_map in Hsum.
  split; [|split].
  - split.
    + intros ->. reflexivity.
    + intros Hnil. destruct df as [|r df]; [reflexivity|].
      unfold category_distribution in Hnil. apply map_eq_nil in Hnil.
      rewrite Hnil in Hsum. cbn [cell_counts_sum fold_right List.length] in Hsum. lia.
  - intros c n p Hin. unfold category_distribution in Hin.
    apply in_map_iff in Hin as [[c' n'] [[= -> -> <-] _]].
    cbn [snd]. now rewrite Hsum.
  - intros Hne. unfold category_distribution.
    rewrite pct_sum_shares, Hsum.
    assert (Hpos : ~ (inject_Z (Z.of_nat (List.length df)) == 0)%Q).
    { destruct df as [|r df]; [congruence|]. cbn [List.length].
      unfold Qeq, inject_Z. cbn [Qnum Qden]. lia. }
    unfold Qdiv. rewrite Qmult_inv_r by exact Hpos. reflexivity.
Qed.

(** ** Insights on the hourly table *)

Lemma sorted_largest_head (a : Z * Z) (l : Series) :
  exists m tail,
    fold_right insert_largest [] (a :: l) = m :: tail /\ first_max (a :: l) m.
Proof.
  revert a. induction l as [|b l IH]; intros a.
  - exists a, []. split; [reflexivity|].
    exists [], []. split; [reflexivity|]. split; intros x [].
  - destruct (IH b) as (m & tail & Hsort & pre & post & Hl & Hpre & Hpost).
    cbn [fold_right] in *. rewrite Hsort. cbn [insert_largest].
    destruct (snd a <? snd m) eqn:E.
    + apply Z.ltb_lt in E. exists m, (insert_largest a tail).
      split; [reflexivity|].
      exists (a :: pre), post. rewrite Hl. split; [reflexivity|].
      split; [|exact Hpost].
      intros x [<- | Hx]; [exact E | now apply Hpre].
    + apply Z.ltb_ge in E. exists a, (m :: tail). split; [reflexivity|].
      exists [], (b :: l). split; [reflexivity|]. split; [intros x []|].
      intros x Hx. rewrite Hl in Hx. apply in_app_or in Hx as [Hx | [<- | Hx]].
      * specialize (Hpre x Hx). lia.
      * exact E.
      * specialize (Hpost x Hx). lia.
Qed.

Lemma sorted_smallest_head (a : Z * Z) (l : Series) :
  exists m tail,
    fold_right insert_smallest [] (a :: l) = m :: tail /\ first_min (a :: l) m.
Proof.
  revert a. induction l as [|b l IH]; intros a.
  - exists a, []. split; [reflexivity|].
    exists [], []. split; [reflexivity|]. split; intros x [].
  - destruct (IH b) as (m & tail & Hsort & pre & post & Hl & Hpre & Hpost).
    cbn [fold_right] in *. rewrite Hsort. cbn [insert_smallest].
    destruct (snd m <? snd a) eqn:E.
    + apply Z.ltb_lt in E. exists m, (insert_smallest a tail).
      split; [reflexivity|].
      exists (a :: pre), post. rewrite Hl. split; [reflexivity|].
      split; [|exact Hpost].
      intros x [<- | Hx]; [exact E | now apply Hpre].
    + apply Z.ltb_ge in E. exists a, (m :: tail). split; [reflexivity|].
      exists [], (b :: l). split; [reflexivity|]. split; [intros x []|].
      intros x Hx. rewrite Hl in Hx. apply in_app_or in Hx as [Hx | [<- | Hx]].
      * specialize (Hpre x Hx). lia.
      * exact E.
      * specialize (Hpost x Hx). lia.
Qed.

Lemma interpret_hourly_distribution_rows (first : Z * Z) (rest : Series) :
  exists peak low,
    first_max (first :: rest) peak /\
    first_min (first :: rest) low /\
    interpret_hourly_distribution (first :: rest)
    = [peak_message peak; quiet_message low]
      ++ (if in_range 18 24 (fst peak) then [EVENING] else [])
      ++ (if in_range 6 9 (fst peak) then [MORNING] else []).
Proof.
  destruct (sorted_largest_head first rest) as (peak & t1 & H1 & Hmax).
  destruct (sorted_smallest_head first rest) as (low & t2 & H2 & Hmin).
  exists peak, low. split; [exact Hmax|]. split; [exact Hmin|].
  unfold interpret_hourly_distribution, nlargest, nsmallest.
  rewrite H1, H2. reflexivity.
Qed.

Lemma insights_length (peak low : Z * Z) :
  let ins := [peak_message peak; quiet_message low]
             ++ (if in_range 18 24 (fst peak) then [EVENING] else [])
             ++ (if in_range 6 9 (fst peak) then [MORNING] else []) in
  (2 <= List.length ins <= 3)%nat /\ ~ (In EVENING ins /\ In MORNING ins /\
                                         List.length ins = 4%nat).
Proof.
  unfold in_range.
  destruct ((18 <=? fst peak) && (fst peak <? 24)) eqn:E1;
    destruct ((6 <=? fst peak) && (fst peak <? 9)) eqn:E2;
    cbn [app List.length]; try (split; [lia | intros (_ & _ & H); discriminate]).
  apply andb_true_iff in E1 as [A _]. apply andb_true_iff in E2 as [_ B].
  apply Z.leb_le in A. apply Z.ltb_lt in B. lia.
Qed.

(** X15. On an empty hourly table the insights are the single sentence
    "No data available for selected period."; otherwise they start with
    the peak sentence for the first row of largest count and the quiet
    sentence for the first row of smallest count, followed by the evening
    sentence when the peak hour is in 18..23 or by the morning sentence
    when it is in 6..8, so by two or three sentences in all. *)
Theorem hourly_insights (hr_df : Series) :
  match hr_df with
  | [] => interpret_hourly_distribution hr_df = [NO_DATA]
  | _ :: _ =>
      exists peak low,
        first_max hr_df peak /\
        first_min hr_df low /\
        interpret_hourly_distribution hr_df
        = [peak_message peak; quiet_message low]
          ++ (if in_range 18 24 (fst peak) then [EVENING] else [])
          ++ (if in_range 6 9 (fst peak) then [MORNING] else []) /\
        (2 <= List.length (interpret_hourly_distribution hr_df) <= 3)%nat
  end.
Proof.
  destruct hr_df as [|first rest]; [reflexivity|].
  destruct (interpret_hourly_distribution_rows first rest)
    as (peak & low & Hmax & Hmin & Heq).
  exists peak, low. repeat (split; [assumption|]).
  rewrite Heq. apply insights_length.
Qed.

Lemma first_max_in (t : Series) (e : Z * Z) : first_max t e -> In e t.
Proof.
  intros (pre & post & -> & _). apply in_or_app. right. now left.
Qed.

(** X16. The hourly table of the dashboard always has its 24 rows, so its
    insights never are the "No data" sentence: they are two or three
    sentences and the first names a peak hour among 0..23, the first hour
    of largest count, with the number of its records; for a record set
    without any record the peak is hour 0 with 0 calls. *)
Theorem hourly_insights_never_no_data (df : list Row) :
  let ins := interpret_hourly_distribution (agg_calls_by_hour df) in
  ~ In NO_DATA ins /\
  (2 <= List.length ins <= 3)%nat /\
  (exists peak,
      first_max (agg_calls_by_hour df) peak /\
      hd EmptyString ins = peak_message peak /\
      0 <= fst peak <= 23 /\
      snd peak = count_key (map hour df) (fst peak)) /\
  first_max (agg_calls_by_hour []) (0, 0).
Proof.
  intros ins. unfold ins.
  destruct (agg_calls_by_hour df) as [|first rest] eqn:Hagg.
  { pose proof (f_equal (@List.length _) Hagg) as Hlen.
    rewrite agg_calls_by_hour_eq, length_map in Hlen. discriminate. }
  destruct (interpret_hourly_distribution_rows first rest)
    as (peak & low & Hmax & Hmin & Heq).
  rewrite Heq.
  pose proof (insights_length peak low) as [Hlen _].
  split; [|split; [exact Hlen|split]].
  - intros Hin. cbn [app In] in Hin.
    destruct Hin as [H | [H | Hin]]; [discriminate | discriminate |].
    destruct (in_range 18 24 (fst peak)), (in_range 6 9 (fst peak));
      cbn [app In] in Hin; intuition discriminate.
  - exists peak. split; [exact Hmax|]. split; [reflexivity|].
    apply first_max_in in Hmax. rewrite <- Hagg, agg_calls_by_hour_eq in Hmax.
    apply in_map_iff in Hmax as [h [<- Hh]]. cbn [fst snd].
    split; [|reflexivity].
    unfold range24 in Hh. apply in_map_iff in Hh as [n [<- Hn]].
    apply in_seq in Hn. lia.
  - exists [], (tl (agg_calls_by_hour [])). split; [reflexivity|].
    split; [intros x [] |].
    intros x Hx. vm_compute in Hx.
    repeat (destruct Hx as [<- | Hx]; [cbn [snd]; lia|]). contradiction.
Qed.

(** ** The table handed to the maps *)

Lemma filter_filter {A : Type} (p q : A -> bool) (l : list A) :
  filter q (filter p l) = filter (fun a => p a && q a) l.
Proof.
  induction l as [|a l IH]; [reflexivity|]. cbn [filter].
  destruct (p a) eqn:Hp; cbn [filter andb]; [|exact IH].
  destruct (q a); now rewrite IH.
Qed.

(** X17. The table handed to the maps holds, in the order of the data,
    the rows with both coordinates and with a category and a jurisdiction,
    each with weight 1 and coordinates that are not NaN. On a normalized
    table these are exactly the rows flagged [has_coords], the rows whose
    raw category was missing included (as "nan"); so the map table is
    empty exactly when no row is flagged. *)
Theorem map_rows_are_rows_with_coords
  (parse_datetime : string -> option Z) (parse_numeric : string -> option float)
  (df : list Row) (raw : list RawRow) :
  Forall (fun p => notna (p_lat p) = true /\ notna (p_lon p) = true /\
                   (p_weight p == 1)%Q) (clean_df_for_pydeck df) /\
  (List.length (clean_df_for_pydeck df) <= List.length df)%nat /\
  let norm := preprocess parse_datetime parse_numeric raw in
  clean_df_for_pydeck norm
  = map (fun r => {| p_lat := caller_lat r;
                     p_lon := caller_lon r;
                     p_category := astype_str (category r);
                     p_jurisdiction := astype_str (jurisdiction r);
                     p_weight := 1%Q |}) (filter has_coords norm) /\
  (clean_df_for_pydeck norm = [] <-> forall r, In r norm -> has_coords r = false).
Proof.
  split; [|split].
  - unfold clean_df_for_pydeck. apply Forall_forall. intros p Hp.
    apply in_map_iff in Hp as [r [<- Hr]]. cbn [p_lat p_lon p_weight].
    apply filter_In in Hr as [_ Hr]. apply andb_true_iff in Hr as [H1 H2].
    repeat split; assumption || reflexivity.
  - unfold clean_df_for_pydeck. rewrite length_map.
    eapply Nat.le_trans; apply filter_length_le.
  - intros norm.
    assert (Heq : clean_df_for_pydeck norm
                  = map (fun r => {| p_lat := caller_lat r;
                                     p_lon := caller_lon r;
                                     p_category := astype_str (category r);
                                     p_jurisdiction := astype_str (jurisdiction r);
                                     p_weight := 1%Q |}) (filter has_coords norm)).
    { unfold clean_df_for_pydeck. f_equal. rewrite filter_filter.
      apply filter_ext_in. intros row Hrow.
      unfold norm, preprocess in Hrow. apply in_map_iff in Hrow as [r [<- _]].
      unfold preprocess_row.
      cbn [caller_lat caller_lon category jurisdiction has_coords cell_notna].
      destruct (notna (to_numeric_coerce parse_numeric (raw_caller_lat r)));
        destruct (notna (to_numeric_coerce parse_numeric (raw_caller_lon r)));
        reflexivity. }
    split; [exact Heq|].
    rewrite Heq. split.
    + intros Hnil r Hr. apply map_eq_nil in Hnil.
      destruct (has_coords r) eqn:E; [|reflexivity].
      assert (In r (filter has_coords norm)) by (apply filter_In; auto).
      rewrite Hnil in H. contradiction.
    + intros Hall. now rewrite (filter_none has_coords norm Hall).
Qed.

(** ** The days of the calendar *)

Lemma dict_get_setdefault_append (key name k : string) (m : DatesMap) :
  dict_get (setdefault_append key name m) k
  = if String.eqb k key
    then Some (match dict_get m key with
               | Some v => v ++ [name]
               | None => [name]
               end)
    else dict_get m k.
Proof.
  induction m as [|[k' v] m IH]; cbn [setdefault_append dict_get].
  - destruct (String.eqb k key); reflexivity.
  - destruct (String.eqb key k') eqn:E; cbn [dict_get].
    + apply String.eqb_eq in E. subst k'.
      destruct (String.eqb k key); reflexivity.
    + destruct (String.eqb k k') eqn:E'.
      * apply String.eqb_eq in E'. subst k'.
        rewrite String.eqb_sym, E. reflexivity.
      * rewrite IH. reflexivity.
Qed.

Lemma extend_app (o : option (list string)) (a b : list string) :
  extend (extend o a) b = extend o (a ++ b).
Proof.
  destruct a as [|x a]; [reflexivity|].
  destruct b as [|y b]; cbn [extend app].
  - now rewrite app_nil_r.
  - destruct o as [v|]; cbn [app]; [now rewrite <- app_assoc | reflexivity].
Qed.

Section FestivalDatesMapFacts.

Variable isoformat : Z -> string.
Hypothesis isoformat_inj : forall a b, isoformat a = isoformat b -> a = b.

Lemma dict_get_mark_days (n : nat) (cur : Z) (name : string) (m : DatesMap) (d : Z) :
  dict_get (mark_days isoformat n cur name m) (isoformat d)
  = extend (dict_get m (isoformat d))
      (if (cur <=? d) && (d <? cur + Z.of_nat n) then [name] else []).
Proof.
  revert cur m. induction n as [|n IH]; intros cur m.
  - cbn [mark_days]. replace ((cur <=? d) && (d <? cur + Z.of_nat 0)) with false;
      [reflexivity|].
    symmetry. apply andb_false_iff.
    destruct (cur <=? d) eqn:E; [right | now left].
    apply Z.leb_le in E. apply Z.ltb_ge. lia.
  - cbn [mark_days]. rewrite IH, dict_get_setdefault_append.
    destruct (String.eqb (isoformat d) (isoformat cur)) eqn:E.
    + apply String.eqb_eq, isoformat_inj in E. subst d.
      replace ((cur + 1 <=? cur) && (cur <? cur + 1 + Z.of_nat n)) with false
        by (symmetry; apply andb_false_iff; left; apply Z.leb_gt; lia).
      replace ((cur <=? cur) && (cur <? cur + Z.of_nat (S n))) with true
        by (symmetry; apply andb_true_iff; split;
            [apply Z.leb_le | apply Z.ltb_lt]; lia).
      cbn [extend]. destruct (dict_get m (isoformat cur)); reflexivity.
    + assert (Hne : d <> cur).
      { intros ->. now rewrite String.eqb_refl in E. }
      replace ((cur <=? d) && (d <? cur + Z.of_nat (S n)))
        with ((cur + 1 <=? d) && (d <? cur + 1 + Z.of_nat n)); [reflexivity|].
      destruct (cur + 1 <=? d) eqn:E1, (cur <=? d) eqn:E2,
               (d <? cur + 1 + Z.of_nat n) eqn:E3,
               (d <? cur + Z.of_nat (S n)) eqn:E4; cbn [andb]; try reflexivity;
        rewrite ?Z.leb_le, ?Z.leb_gt, ?Z.ltb_lt, ?Z.ltb_ge in *; lia.
Qed.

Lemma dict_get_fold (festivals : list Festival) (m : DatesMap) (d : Z) :
  dict_get
    (fold_left (fun m f =>
                  let '(name, fs, fe) := f in
                  mark_days isoformat (Z.to_nat (ts_date fe + 1 - ts_date fs))
                    (ts_date fs) name m) festivals m) (isoformat d)
  = extend (dict_get m (isoformat d)) (map fest_name (filter (on_day d) festivals)).
Proof.
  revert m. induction festivals as [|[[name fs] fe] festivals IH]; intros m.
  - reflexivity.
  - cbn [fold_left]. rewrite IH, dict_get_mark_days.
    cbn [filter]. unfold on_day at 2. cbn [fest_start fest_end fst snd].
    replace ((ts_date fs <=? d)
             && (d <? ts_date fs + Z.of_nat (Z.to_nat (ts_date fe + 1 - ts_date fs))))
      with ((ts_date fs <=? d) && (d <=? ts_date fe)).
    + destruct ((ts_date fs <=? d) && (d <=? ts_date fe)).
      * rewrite extend_app. reflexivity.
      * reflexivity.
    + destruct (ts_date fs <=? d) eqn:E1; [|reflexivity]. cbn [andb].
      apply Z.leb_le in E1.
      destruct (d <=? ts_date fe) eqn:E2;
        [apply Z.leb_le in E2; symmetry; apply Z.ltb_lt
        | apply Z.leb_gt in E2; symmetry; apply Z.ltb_ge]; lia.
Qed.

(** X18. The calendar map: when distinct dates have distinct ISO texts,
    looking up the text of a day gives the names of the festivals whose
    days include that day, in catalog order and one per festival entry, and
    the text of a day of no festival is not a key. *)
Theorem festival_dates_map_lookup (all_festivals : list Festival) (d : Z) :
  dict_get (festival_dates_map isoformat all_festivals) (isoformat d)
  = match map fest_name (filter (on_day d) all_festivals) with
    | [] => None
    | names => Some names
    end.
Proof.
  unfold festival_dates_map. rewrite dict_get_fold. cbn [dict_get].
  destruct (map fest_name (filter (on_day d) all_festivals)); reflexivity.
Qed.

End FestivalDatesMapFacts.

Lemma str_int_inj (a b : Z) : str_int a = str_int b -> a = b.
Proof.
  unfold str_int. intros H.
  assert (Hnn : forall z, Z.to_int z <> Decimal.Pos Decimal.Nil /\
                          Z.to_int z <> Decimal.Neg Decimal.Nil).
  { intros z. split; intros Hz; pose proof (DecimalZ.of_to z) as Hof;
      rewrite Hz in Hof; cbn in Hof; subst z; discriminate. }
  apply DecimalZ.to_int_inj.
  pose proof (NilZero.isi (Z.to_int a) (proj1 (Hnn a)) (proj2 (Hnn a))) as Ha.
  pose proof (NilZero.isi (Z.to_int b) (proj1 (Hnn b)) (proj2 (Hnn b))) as Hb.
  rewrite H in Ha. rewrite Ha in Hb. now injection Hb.
Qed.

(** ** The further properties on worked inputs *)

Lemma row_order_is_irrelevant_witness :
  let a := example_row 0 "crime" in
  let b := example_row 1 "crime" in
  filter_significant_festivals [example_festival] (Some [a; b]) "crime" (30 # 1) 5
  = filter_significant_festivals [example_festival] (Some [b; a]) "crime" (30 # 1) 5 /\
  agg_calls_by_day [a; b] = agg_calls_by_day [b; a] /\
  agg_calls_by_hour [a; b] = agg_calls_by_hour [b; a].
Proof.
  apply (row_order_is_irrelevant [example_festival]
           [example_row 0 "crime"; example_row 1 "crime"]
           [example_row 1 "crime"; example_row 0 "crime"] "crime" (30 # 1) 5).
  apply perm_swap.
Defined.

Lemma inverted_interval_never_significant_witness :
  ts_date (fest_end inverted_festival) < ts_date (fest_start inverted_festival) /\
  ~ exists r,
      In r (filter_significant_festivals [inverted_festival] (Some example_rows)
              "crime" (- (100 # 1)) 0) /\
      result_of inverted_festival r.
Proof.
  split; [reflexivity|].
  apply (inverted_interval_never_significant [inverted_festival] (Some example_rows)
           "crime" (- (100 # 1)) 0 inverted_festival).
  reflexivity.
Defined.

Lemma window_restriction_keeps_tags_witness :
  let t := date_to_datetime 1 + 10 * NS_PER_HOUR in
  tag_festival_for_row
    (festivals_in_range (date_to_datetime 0) (date_to_datetime 3) example_catalog)
    (Some t)
  = tag_festival_for_row example_catalog (Some t) /\
  tag_festival_for_row
    (festivals_in_range (date_to_datetime 0) (date_to_datetime 3) example_catalog) None
  = tag_festival_for_row example_catalog None.
Proof.
  apply (window_restriction_keeps_tags (date_to_datetime 0) (date_to_datetime 3)
           example_catalog (date_to_datetime 1 + 10 * NS_PER_HOUR)).
  vm_compute. split; discriminate.
Defined.

Lemma all_day_event_last_day_witness :
  let f : Festival := ("Diwali", date_to_datetime 10, date_to_datetime 10) in
  let t := date_to_datetime 10 + 10 * NS_PER_HOUR in
  fest_start f = date_to_datetime 10 /\
  fest_end f = date_to_datetime (11 - 1) /\
  ~ contains f t /\
  tag_festival_for_row [f] (Some t) = "Non-Festival" /\
  in_interval f (ts_date t).
Proof.
  apply (all_day_event_last_day one_day_event 10 11
           ("Diwali", date_to_datetime 10, date_to_datetime 10)
           (date_to_datetime 10 + 10 * NS_PER_HOUR)).
  - reflexivity.
  - reflexivity.
  - lia.
  - reflexivity.
  - reflexivity.
  - reflexivity.
Defined.

Lemma festival_dates_map_lookup_witness :
  dict_get (festival_dates_map str_int example_catalog) (str_int 1)
  = Some ["Diwali"; "Fair"].
Proof.
  exact (festival_dates_map_lookup str_int str_int_inj example_catalog 1).
Defined.
